(** * NetworkGameState: the shared game-state store and the leaderboard

    A shallow embedding of [CSD2161_A4/Scripts/NetworkGameState.cpp].

    The two global aggregates [currentGameState] and [leaderboard] are
    passed explicitly: every operation takes the aggregate it works on and
    returns the aggregate it leaves behind together with its C++ return
    value.  Fixed-capacity C arrays are lists that are read with [!!] and
    written with [<[ _ := _ ]>]; an index outside the array is an explicit
    [OutOfBounds] outcome.  [uint32_t] values are [N] with the wrap-around
    of [++] written out.  Console output ([std::cerr], [std::cout]) and the
    two mutexes are not part of the model. *)

From Stdlib Require Import NArith List Ascii String Lia Sorted Permutation.
From stdpp Require Import base numbers list strings pretty gmap.

(** ** Outcomes of a call *)

(** A call either returns, or stops the process in the invalid-parameter
    handler of the secure CRT ([strncpy_s]), or touches memory outside an
    array. *)
Inductive result (A : Type) : Type :=
| Ok (a : A)
| InvalidParameter
| OutOfBounds.
Arguments Ok {A} a.
Arguments InvalidParameter {A}.
Arguments OutOfBounds {A}.

#[global] Instance result_ret : MRet result := @Ok.
#[global] Instance result_bind : MBind result := fun A B k m =>
  match m with
  | Ok a => k a
  | InvalidParameter => InvalidParameter
  | OutOfBounds => OutOfBounds
  end.

(** [uint32_t] arithmetic is modulo [2^32]. *)
Definition UINT32_MOD : N := 4294967296.
Definition wrap32 (n : N) : N := (n mod UINT32_MOD)%N.

(** ** The constants of [NetworkGameState.h]

    The header is not among the sources.  Its capacities, the counts that
    are passed to [strncpy_s] and the declared sizes of the two text fields
    of a score are parameters of the development. *)
Class Header := {
  MAX_NETWORK_OBJECTS : N;
  MAX_LEADERBOARD_SCORES : N;
  MAX_NAME_LENGTH : nat;
  TIME_FORMAT : nat;
  (** [sizeof] of [NetworkScore::name] and of [NetworkScore::timestamp] *)
  NAME_SIZE : nat;
  TIMESTAMP_SIZE : nat
}.

(** ** The game-state store *)

Module GameState.

(** A [float] is only ever copied by this file: it is carried as the bit
    pattern of its IEEE-754 binary32 representation. *)
Definition float : Type := N.

Record AEVec2 : Type := { x : float; y : float }.

Record NetworkTransform : Type := {
  position : AEVec2;
  velocity : AEVec2;
  scale : AEVec2
}.

Record NetworkObject : Type := {
  identifier : N;
  transform : NetworkTransform
}.

Record NetworkPlayerData : Type := {
  player_identifier : N;
  player_score : N;
  player_lives : N
}.

Record NetworkGameState : Type := {
  objects : list NetworkObject;
  objectCount : N;
  playerData : list NetworkPlayerData;
  playerCount : N
}.

Definition set_objects (s : NetworkGameState) (objs : list NetworkObject)
  : NetworkGameState :=
  {| objects := objs; objectCount := objectCount s;
     playerData := playerData s; playerCount := playerCount s |}.

Section Store.
Context `{Header}.

(** The loop of [SetNetworkObject] (lines 33-42), with [n] iterations left
    and the loop variable at [x]: [Some s'] when an entry was overwritten
    (and the function returned [true]), [None] when the loop ran out. *)
Fixpoint SetNetworkObject_loop (s : NetworkGameState) (id : N)
    (pos vel scl : AEVec2) (n : nat) (x : N) : result (option NetworkGameState) :=
  match n with
  | O => Ok None
  | S n' =>
      match objects s !! N.to_nat x with
      | None => OutOfBounds
      | Some o =>
          if (identifier o =? id)%N then
            Ok (Some (set_objects s
                  (<[N.to_nat x :=
                      {| identifier := identifier o;
                         transform := {| position := pos; velocity := vel;
                                         scale := scl |} |}]> (objects s))))
          else SetNetworkObject_loop s id pos vel scl n' (wrap32 (x + 1))
      end
  end.

Definition SetNetworkObject (s : NetworkGameState) (id : N)
    (pos vel scl : AEVec2) : result (bool * NetworkGameState) :=
  r ← SetNetworkObject_loop s id pos vel scl (N.to_nat (objectCount s)) 0%N;
  match r with
  | Some s' => Ok (true, s')
  | None =>
      if (objectCount s <? MAX_NETWORK_OBJECTS)%N then
        let index := objectCount s in
        match objects s !! N.to_nat index with
        | None => OutOfBounds
        | Some _ =>
            Ok (true,
                {| objects :=
                     <[N.to_nat index :=
                         {| identifier := id;
                            transform := {| position := pos; velocity := vel;
                                            scale := scl |} |}]> (objects s);
                   objectCount := wrap32 (objectCount s + 1);
                   playerData := playerData s;
                   playerCount := playerCount s |})
        end
      else Ok (false, s)
  end.

(** The loop of [GetNetworkObject] (lines 70-79). *)
Fixpoint GetNetworkObject_loop (s : NetworkGameState) (id : N)
    (n : nat) (x : N) : result (option NetworkTransform) :=
  match n with
  | O => Ok None
  | S n' =>
      match objects s !! N.to_nat x with
      | None => OutOfBounds
      | Some o =>
          if (identifier o =? id)%N then Ok (Some (transform o))
          else GetNetworkObject_loop s id n' (wrap32 (x + 1))
      end
  end.

(** The three reference parameters come in with the caller's values and go
    out next to the return value; a miss leaves them as they were. *)
Definition GetNetworkObject (s : NetworkGameState) (id : N)
    (pos vel scl : AEVec2) : result (bool * (AEVec2 * AEVec2 * AEVec2)) :=
  r ← GetNetworkObject_loop s id (N.to_nat (objectCount s)) 0%N;
  match r with
  | Some t => Ok (true, (position t, velocity t, scale t))
  | None => Ok (false, (pos, vel, scl))
  end.

(** *** Vocabulary of the statements *)

(** The array has its declared number of slots, the count is within it, and
    the capacity is a value of the count's type. *)
Definition well_formed (s : NetworkGameState) : Prop :=
  length (objects s) = N.to_nat MAX_NETWORK_OBJECTS /\
  (objectCount s <= MAX_NETWORK_OBJECTS)%N /\
  (MAX_NETWORK_OBJECTS < UINT32_MOD)%N.

End Store.

(** Slot [k] is live and holds [o], which carries [id]. *)
Definition live_match (s : NetworkGameState) (id : N) (k : N) (o : NetworkObject)
  : Prop :=
  (k < objectCount s)%N /\ objects s !! N.to_nat k = Some o /\ identifier o = id.

Definition has_live (s : NetworkGameState) (id : N) : Prop :=
  exists k o, live_match s id k o.

Definition no_live_match (s : NetworkGameState) (id : N) : Prop :=
  forall k o, (k < objectCount s)%N -> objects s !! N.to_nat k = Some o ->
    identifier o <> id.

(** Slot [k] is the first live slot that carries [id]. *)
Definition first_live_match (s : NetworkGameState) (id : N) (k : N)
    (o : NetworkObject) : Prop :=
  live_match s id k o /\
  forall j o', (j < k)%N -> objects s !! N.to_nat j = Some o' -> identifier o' <> id.

(** An entry with its transform replaced and its identifier kept. *)
Definition overwrite (o : NetworkObject) (pos vel scl : AEVec2) : NetworkObject :=
  {| identifier := identifier o;
     transform := {| position := pos; velocity := vel; scale := scl |} |}.

(** *** The player records *)

Definition set_playerData (s : NetworkGameState) (pd : list NetworkPlayerData)
  : NetworkGameState :=
  {| objects := objects s; objectCount := objectCount s;
     playerData := pd; playerCount := playerCount s |}.

(** The capacity of the player table, from the same header. *)
Class PlayerHeader := { MAX_PLAYERS : N }.

Section Players.
Context `{PlayerHeader}.

(** The loop of [SetNetworkPlayerData] (lines 94-102). *)
Fixpoint SetNetworkPlayerData_loop (s : NetworkGameState) (id sc lv : N)
    (n : nat) (x : N) : result (option NetworkGameState) :=
  match n with
  | O => Ok None
  | S n' =>
      match playerData s !! N.to_nat x with
      | None => OutOfBounds
      | Some p =>
          if (player_identifier p =? id)%N then
            Ok (Some (set_playerData s
                  (<[N.to_nat x :=
                      {| player_identifier := player_identifier p;
                         player_score := sc; player_lives := lv |}]>
                     (playerData s))))
          else SetNetworkPlayerData_loop s id sc lv n' (wrap32 (x + 1))
      end
  end.

Definition SetNetworkPlayerData (s : NetworkGameState) (id sc lv : N)
  : result (bool * NetworkGameState) :=
  r ← SetNetworkPlayerData_loop s id sc lv (N.to_nat (playerCount s)) 0%N;
  match r with
  | Some s' => Ok (true, s')
  | None =>
      if (playerCount s <? MAX_PLAYERS)%N then
        let index := playerCount s in
        match playerData s !! N.to_nat index with
        | None => OutOfBounds
        | Some _ =>
            Ok (true,
                {| objects := objects s;
                   objectCount := objectCount s;
                   playerData :=
                     <[N.to_nat index :=
                         {| player_identifier := id; player_score := sc;
                            player_lives := lv |}]> (playerData s);
                   playerCount := wrap32 (playerCount s + 1) |})
        end
      else Ok (false, s)
  end.

(** The loop of [GetNetworkPlayerData] (lines 123-131). *)
Fixpoint GetNetworkPlayerData_loop (s : NetworkGameState) (id : N)
    (n : nat) (x : N) : result (option NetworkPlayerData) :=
  match n with
  | O => Ok None
  | S n' =>
      match playerData s !! N.to_nat x with
      | None => OutOfBounds
      | Some p =>
          if (player_identifier p =? id)%N then Ok (Some p)
          else GetNetworkPlayerData_loop s id n' (wrap32 (x + 1))
      end
  end.

(** The two reference parameters come in with the caller's values. *)
Definition GetNetworkPlayerData (s : NetworkGameState) (id sc lv : N)
  : result (bool * (N * N)) :=
  r ← GetNetworkPlayerData_loop s id (N.to_nat (playerCount s)) 0%N;
  match r with
  | Some p => Ok (true, (player_score p, player_lives p))
  | None => Ok (false, (sc, lv))
  end.

(** The player table has its declared number of slots, the count is within
    it, and the capacity is a value of the count's type. *)
Definition players_well_formed (s : NetworkGameState) : Prop :=
  length (playerData s) = N.to_nat MAX_PLAYERS /\
  (playerCount s <= MAX_PLAYERS)%N /\
  (MAX_PLAYERS < UINT32_MOD)%N.

End Players.

(** *** The live slices as lists *)

(** The first element of [l] whose key is [id]. *)
Fixpoint find_by {A} (key : A -> N) (l : list A) (id : N) : option A :=
  match l with
  | [] => None
  | a :: l' => if (key a =? id)%N then Some a else find_by key l' id
  end.

Definition live_objects (s : NetworkGameState) : list NetworkObject :=
  take (N.to_nat (objectCount s)) (objects s).

Definition live_identifiers (s : NetworkGameState) : list N :=
  identifier <$> live_objects s.

Definition live_players (s : NetworkGameState) : list NetworkPlayerData :=
  take (N.to_nat (playerCount s)) (playerData s).

Definition live_player_identifiers (s : NetworkGameState) : list N :=
  player_identifier <$> live_players s.

(** A new object and a new player record. *)
Definition new_object (id : N) (pos vel scl : AEVec2) : NetworkObject :=
  {| identifier := id;
     transform := {| position := pos; velocity := vel; scale := scl |} |}.

Definition new_player (id sc lv : N) : NetworkPlayerData :=
  {| player_identifier := id; player_score := sc; player_lives := lv |}.

(** A player record with its score and lives replaced and its identifier
    kept. *)
Definition overwrite_player (p : NetworkPlayerData) (sc lv : N) : NetworkPlayerData :=
  {| player_identifier := player_identifier p; player_score := sc;
     player_lives := lv |}.

(** A run of [SetNetworkObject] calls, one per identifier and transform, with
    the values they returned. *)
Fixpoint SetNetworkObjects `{Header} (s : NetworkGameState)
    (calls : list (N * NetworkTransform)) : result (list bool * NetworkGameState) :=
  match calls with
  | [] => Ok ([], s)
  | (id, t) :: rest =>
      r ← SetNetworkObject s id (position t) (velocity t) (scale t);
      rs ← SetNetworkObjects (snd r) rest;
      Ok (fst r :: fst rs, snd rs)
  end.

End GameState.

(** ** The leaderboard *)

Module Leaderboard.

(** The text fields are the raw [char] arrays, terminator and the bytes
    behind it included. *)
Record NetworkScore : Type := {
  identifier : N;
  name : list ascii;
  score : N;
  timestamp : list ascii
}.

Record NetworkLeaderboard : Type := {
  scoreCount : N;
  scores : list NetworkScore
}.

Definition NUL : ascii := Ascii.zero.

(** The characters of a C string argument: what stands before the first
    terminator. *)
Fixpoint cstring (s : list ascii) : list ascii :=
  match s with
  | [] => []
  | c :: s' => if Ascii.eqb c NUL then [] else c :: cstring s'
  end.

(** Reading a [char] array as a C string ([operator<<] on a [char const*]):
    the scan runs off the array when it holds no terminator. *)
Fixpoint read_cstring (buf : list ascii) : result (list ascii) :=
  match buf with
  | [] => OutOfBounds
  | c :: buf' =>
      if Ascii.eqb c NUL then Ok []
      else s ← read_cstring buf'; Ok (c :: s)
  end.

(** [strncpy_s(dest, src, count)], the array overload of the Microsoft CRT:
    [size] is the number of elements of [dest].  With [D] the lesser of
    [count] and the length of [src], the first [D] characters and a
    terminator are stored when they fit in [size] elements; otherwise the
    invalid-parameter handler runs.  The elements behind the terminator are
    left as they were (release CRT). *)
Definition strncpy_s (size : nat) (dest src : list ascii) (count : nat)
  : result (list ascii) :=
  let D := Nat.min count (length (cstring src)) in
  if (D <? size)%nat then
    Ok (take D (cstring src) ++ NUL :: drop (S D) dest)
  else InvalidParameter.

(** [std::sort(first, last, comp)].  The standard fixes the result up to
    the order of equivalent elements; it is modelled by a straight
    insertion sort, and the theorems below speak of the result only through
    [Sorted] and [Permutation]. *)
Fixpoint sort_insert {A} (comp : A -> A -> bool) (a : A) (l : list A) : list A :=
  match l with
  | [] => [a]
  | b :: l' => if comp a b then a :: l else b :: sort_insert comp a l'
  end.

Definition std_sort {A} (comp : A -> A -> bool) (l : list A) : list A :=
  foldr (sort_insert comp) [] l.

(** The comparator of both calls: [lhs.score > rhs.score]. *)
Definition by_score (lhs rhs : NetworkScore) : bool := (score rhs <? score lhs)%N.

(** [std::sort(scores, scores + count, by_score)] on the backing array. *)
Definition sort_scores (arr : list NetworkScore) (count : N)
  : result (list NetworkScore) :=
  if (N.to_nat count <=? length arr)%nat then
    Ok (std_sort by_score (take (N.to_nat count) arr) ++ drop (N.to_nat count) arr)
  else OutOfBounds.

Section Store.
Context `{Header}.

(** The four assignments to [entry] (lines 146-149 and 168-171). *)
Definition write_entry (entry : NetworkScore) (id : N) (nm : list ascii)
    (sc : N) (ts : list ascii) : result NetworkScore :=
  name' ← strncpy_s NAME_SIZE (name entry) nm MAX_NAME_LENGTH;
  timestamp' ← strncpy_s TIMESTAMP_SIZE (timestamp entry) ts TIME_FORMAT;
  Ok {| identifier := id; name := name'; score := sc; timestamp := timestamp' |}.

Definition AddScoreToLeaderboard (lb : NetworkLeaderboard) (id : N)
    (nm : list ascii) (sc : N) (ts : list ascii)
  : result (bool * NetworkLeaderboard) :=
  if (scoreCount lb <? MAX_LEADERBOARD_SCORES)%N then
    let index := N.to_nat (scoreCount lb) in
    let count := wrap32 (scoreCount lb + 1) in
    match scores lb !! index with
    | None => OutOfBounds
    | Some entry =>
        entry' ← write_entry entry id nm sc ts;
        arr ← sort_scores (<[index := entry']> (scores lb)) count;
        Ok (true, {| scoreCount := count; scores := arr |})
    end
  else
    match scores lb !! N.to_nat (MAX_LEADERBOARD_SCORES - 1) with
    | None => OutOfBounds
    | Some entry =>
        if (score entry <? sc)%N then
          entry' ← write_entry entry id nm sc ts;
          arr ← sort_scores
                  (<[N.to_nat (MAX_LEADERBOARD_SCORES - 1) := entry']> (scores lb))
                  (scoreCount lb);
          Ok (true, {| scoreCount := scoreCount lb; scores := arr |})
        else Ok (false, lb)
    end.

(** The loop of [GetTopPlayersFromLeaderboard] (lines 224-232), with [n]
    iterations left, the loop variable at [x] and the vector built so far. *)
Fixpoint GetTopPlayers_loop (lb : NetworkLeaderboard) (n : nat) (x : N)
    (topScores : list string) : result (list string) :=
  match n with
  | O => Ok topScores
  | S n' =>
      match scores lb !! N.to_nat x with
      | None => OutOfBounds
      | Some sc =>
          nm ← read_cstring (name sc);
          ts ← read_cstring (timestamp sc);
          let line :=
            pretty (wrap32 (x + 1)) +:+ ") " +:+ string_of_list_ascii nm +:+ ": "
              +:+ pretty (score sc) +:+ " [" +:+ string_of_list_ascii ts +:+ "]" in
          GetTopPlayers_loop lb n' (wrap32 (x + 1)) (topScores ++ [line])
      end
  end.

Definition GetTopPlayersFromLeaderboard (lb : NetworkLeaderboard) (playerCount : N)
  : result (list string * NetworkLeaderboard) :=
  let count := if (playerCount <? scoreCount lb)%N then playerCount else scoreCount lb in
  topScores ← GetTopPlayers_loop lb (N.to_nat count) 0%N [];
  Ok (topScores, lb).

End Store.

(** *** Persistence *)

(** A [uint32_t] in memory: four bytes, least significant first. *)
Definition u32_bytes (n : N) : list ascii :=
  [ascii_of_N (n mod 256); ascii_of_N (n / 256 mod 256);
   ascii_of_N (n / 65536 mod 256); ascii_of_N (n / 16777216 mod 256)]%N.

Definition bytes_u32 (bs : list ascii) : N :=
  foldr (fun b acc => N_of_ascii b + 256 * acc)%N 0%N (take 4 bs).

(** Bytes that bring an offset to the next multiple of four. *)
Definition padding (n : nat) : nat := (4 - n mod 4) mod 4.

(** The files of the host: the contents of those that can be opened for
    reading, and whether a path can be opened for writing. *)
Record FileSystem : Type := {
  files : gmap string (list ascii);
  writable : string -> bool
}.

(** [istream::read(dest, n)] on a freshly opened file: the first [n] bytes
    of the file go to the start of the destination, whose image is [mem];
    a shorter file fills only as many bytes as it has. *)
Definition istream_read (mem file : list ascii) (n : nat) : list ascii :=
  take n file ++ drop (Nat.min n (length file)) mem.

Section Layout.
Context `{Header}.

(** Modelled from the spec: the object representation of [NetworkScore] and
    [NetworkLeaderboard], whose declarations are in the missing header.
    The record is the entry count followed by the whole backing array; an
    entry is its identifier, name, score and timestamp in this order, every
    [uint32_t] on a four-byte boundary.  Padding bytes carry no value: they
    are written as zero and skipped when read. *)
Definition SCORE_SIZE : nat :=
  4 + NAME_SIZE + padding NAME_SIZE + 4 + TIMESTAMP_SIZE + padding TIMESTAMP_SIZE.

(** Modelled from the spec: [sizeof(NetworkLeaderboard)], the count and
    [MAX_LEADERBOARD_SCORES] entries. *)
Definition LEADERBOARD_SIZE : nat :=
  4 + N.to_nat MAX_LEADERBOARD_SCORES * SCORE_SIZE.

(** Modelled from the spec: the bytes of an entry, field after field. *)
Definition score_bytes (e : NetworkScore) : list ascii :=
  u32_bytes (identifier e) ++ name e ++ replicate (padding NAME_SIZE) NUL
    ++ u32_bytes (score e) ++ timestamp e
    ++ replicate (padding TIMESTAMP_SIZE) NUL.

(** Modelled from the spec: the entry that [SCORE_SIZE] bytes stand for. *)
Definition score_of_bytes (bs : list ascii) : NetworkScore :=
  {| identifier := bytes_u32 bs;
     name := take NAME_SIZE (drop 4 bs);
     score := bytes_u32 (drop (4 + NAME_SIZE + padding NAME_SIZE) bs);
     timestamp :=
       take TIMESTAMP_SIZE (drop (4 + NAME_SIZE + padding NAME_SIZE + 4) bs) |}.

(** Modelled from the spec: the backing array, [n] entries one after the
    other. *)
Fixpoint scores_of_bytes (n : nat) (bs : list ascii) : list NetworkScore :=
  match n with
  | O => []
  | S n' => score_of_bytes (take SCORE_SIZE bs)
              :: scores_of_bytes n' (drop SCORE_SIZE bs)
  end.

(** Modelled from the spec: the bytes of the aggregate, the count followed
    by the backing array, unused slots included. *)
Definition leaderboard_bytes (lb : NetworkLeaderboard) : list ascii :=
  u32_bytes (scoreCount lb) ++ concat (map score_bytes (scores lb)).

(** Modelled from the spec: the aggregate that [LEADERBOARD_SIZE] bytes
    stand for. *)
Definition leaderboard_of_bytes (bs : list ascii) : NetworkLeaderboard :=
  {| scoreCount := bytes_u32 bs;
     scores := scores_of_bytes (N.to_nat MAX_LEADERBOARD_SCORES) (drop 4 bs) |}.

(** [SaveLeaderboard]: when the file opens, it is replaced by the
    [sizeof(NetworkLeaderboard)] bytes of the aggregate. *)
Definition SaveLeaderboard (fs : FileSystem) (lb : NetworkLeaderboard)
    (filename : string) : FileSystem :=
  if writable fs filename then
    {| files := <[filename := leaderboard_bytes lb]> (files fs);
       writable := writable fs |}
  else fs.

(** [LoadLeaderboard]: when the file opens, [sizeof(NetworkLeaderboard)]
    bytes are read straight into the aggregate. *)
Definition LoadLeaderboard (fs : FileSystem) (lb : NetworkLeaderboard)
    (filename : string) : NetworkLeaderboard :=
  match files fs !! filename with
  | None => lb
  | Some bytes =>
      leaderboard_of_bytes
        (istream_read (leaderboard_bytes lb) bytes LEADERBOARD_SIZE)
  end.

End Layout.

(** *** Vocabulary of the statements *)

(** Non-increasing scores: [a] may stand before [b]. *)
Definition score_ge (a b : NetworkScore) : Prop := (score b <= score a)%N.

(** The live slice [scores[0..scoreCount)]. *)
Definition live (lb : NetworkLeaderboard) : list NetworkScore :=
  take (N.to_nat (scoreCount lb)) (scores lb).

Definition sorted_live (lb : NetworkLeaderboard) : Prop := Sorted score_ge (live lb).

(** The copy of [strncpy_s] fits: the characters to store and their
    terminator are at most [size]. *)
Definition fits (size : nat) (src : list ascii) (count : nat) : Prop :=
  (Nat.min count (length (cstring src)) < size)%nat.

(** A text field holds a terminator. *)
Definition terminated (buf : list ascii) : Prop := NUL ∈ buf.

(** The line of the top-players list for the entry at rank [rank]:
    ["<rank>) <name>: <score> [<timestamp>]"]. *)
Definition rendered (rank : N) (e : NetworkScore) : string :=
  pretty rank +:+ ") " +:+ string_of_list_ascii (cstring (name e)) +:+ ": "
    +:+ pretty (score e) +:+ " [" +:+ string_of_list_ascii (cstring (timestamp e))
    +:+ "]".

Section Shapes.
Context `{Header}.

(** Both text fields of an entry have their declared size. *)
Definition sized_score (e : NetworkScore) : Prop :=
  length (name e) = NAME_SIZE /\ length (timestamp e) = TIMESTAMP_SIZE.

(** The backing array has its declared number of entries, each of the
    declared shape. *)
Definition sized (lb : NetworkLeaderboard) : Prop :=
  length (scores lb) = N.to_nat MAX_LEADERBOARD_SCORES /\
  Forall sized_score (scores lb).

(** The values an object of the C++ types can hold: sizes as declared and
    every [uint32_t] below [2^32]. *)
Definition typed_score (e : NetworkScore) : Prop :=
  sized_score e /\ (identifier e < UINT32_MOD)%N /\ (score e < UINT32_MOD)%N.

Definition typed (lb : NetworkLeaderboard) : Prop :=
  (scoreCount lb < UINT32_MOD)%N /\
  length (scores lb) = N.to_nat MAX_LEADERBOARD_SCORES /\
  Forall typed_score (scores lb).

(** The mutations of the leaderboard: an admission and a load. *)
Inductive mutation : Type :=
| MAdd (id : N) (nm : list ascii) (sc : N) (ts : list ascii)
| MLoad (fs : FileSystem) (filename : string).

Definition mutate (m : mutation) (lb : NetworkLeaderboard)
  : result NetworkLeaderboard :=
  match m with
  | MAdd id nm sc ts =>
      r ← AddScoreToLeaderboard lb id nm sc ts; Ok (snd r)
  | MLoad fs filename => Ok (LoadLeaderboard fs lb filename)
  end.

(** Sortedness of the live slice as an invariant of every mutation. *)
Definition sorted_is_invariant : Prop :=
  forall m lb lb', sorted_live lb -> mutate m lb = Ok lb' -> sorted_live lb'.

(** A load that is atomic with respect to failure: the leaderboard is the
    one it was, or it is the one a file with the whole record holds. *)
Definition load_is_atomic (fs : FileSystem) (lb : NetworkLeaderboard)
    (filename : string) : Prop :=
  LoadLeaderboard fs lb filename = lb \/
  exists bytes,
    files fs !! filename = Some bytes /\
    (LEADERBOARD_SIZE <= length bytes)%nat /\
    LoadLeaderboard fs lb filename = leaderboard_of_bytes bytes.

(** Two records no admission produces: one entry more than the array
    holds, and a lower score in front of a higher one. *)
Definition blank_score (sc : N) : NetworkScore :=
  {| identifier := 0; name := replicate NAME_SIZE NUL; score := sc;
     timestamp := replicate TIMESTAMP_SIZE NUL |}.

Definition overfull : NetworkLeaderboard :=
  {| scoreCount := MAX_LEADERBOARD_SCORES + 1;
     scores := replicate (N.to_nat MAX_LEADERBOARD_SCORES) (blank_score 0) |}.

Definition misordered : NetworkLeaderboard :=
  {| scoreCount := 2;
     scores := blank_score 0 :: blank_score 1
                 :: replicate (N.to_nat MAX_LEADERBOARD_SCORES - 2) (blank_score 0) |}.

(** The state every admission keeps: the array at its declared length, the
    count within it, the live slice in order and its text fields
    terminated. *)
Definition valid (lb : NetworkLeaderboard) : Prop :=
  length (scores lb) = N.to_nat MAX_LEADERBOARD_SCORES /\
  (scoreCount lb <= MAX_LEADERBOARD_SCORES)%N /\
  sorted_live lb /\
  Forall (fun e => terminated (name e) /\ terminated (timestamp e)) (live lb).


(** A slot that [GetTopPlayersFromLeaderboard] cannot print: outside the
    array, or with a text field that holds no terminator. *)
Definition unprintable (lb : NetworkLeaderboard) (j : nat) : Prop :=
  match scores lb !! j with
  | None => True
  | Some e => ~ terminated (name e) \/ ~ terminated (timestamp e)
  end.

(** The line of the top-players list for an admitted score, from the
    arguments of the admission. *)
Definition admitted_line (rank : N) (nm : list ascii) (sc : N) (ts : list ascii)
  : string :=
  pretty rank +:+ ") " +:+ string_of_list_ascii (take MAX_NAME_LENGTH (cstring nm))
    +:+ ": " +:+ pretty sc +:+ " ["
    +:+ string_of_list_ascii (take TIME_FORMAT (cstring ts)) +:+ "]".

End Shapes.
End Leaderboard.

(** ** Concrete instances *)

Module Instances.
Import GameState Leaderboard.

(** A header with two objects, three scores and text fields of four
    elements that take three characters. *)
Definition small_header : Header :=
  {| MAX_NETWORK_OBJECTS := 2; MAX_LEADERBOARD_SCORES := 3;
     MAX_NAME_LENGTH := 3; TIME_FORMAT := 3;
     NAME_SIZE := 4; TIMESTAMP_SIZE := 4 |}.

(** The same with text fields declared with exactly the count passed to
    [strncpy_s]. *)
Definition tight_header : Header :=
  {| MAX_NETWORK_OBJECTS := 2; MAX_LEADERBOARD_SCORES := 3;
     MAX_NAME_LENGTH := 4; TIME_FORMAT := 4;
     NAME_SIZE := 4; TIMESTAMP_SIZE := 4 |}.

Definition vec (a b : N) : AEVec2 := {| x := a; y := b |}.

Definition object (id : N) (p v s : AEVec2) : NetworkObject :=
  {| GameState.identifier := id;
     transform := {| position := p; velocity := v; scale := s |} |}.

Definition origin : AEVec2 := vec 0 0.

(** One live object out of two slots, and both slots live. *)
Definition store_one : NetworkGameState :=
  {| objects := [object 1 (vec 10 11) (vec 12 13) (vec 14 15);
                 object 0 origin origin origin];
     objectCount := 1; playerData := []; playerCount := 0 |}.

Definition store_full : NetworkGameState :=
  {| objects := [object 1 (vec 10 11) (vec 12 13) (vec 14 15);
                 object 2 (vec 20 21) (vec 22 23) (vec 24 25)];
     objectCount := 2; playerData := []; playerCount := 0 |}.

Definition text (s : string) : list ascii := list_ascii_of_string s.

(** A text field of four elements holding [s] and its terminator. *)
Definition field (s : string) : list ascii :=
  take 4 (text s ++ replicate 4 NUL).

Definition entry (id : N) (nm : string) (sc : N) (ts : string) : NetworkScore :=
  {| Leaderboard.identifier := id; name := field nm; score := sc;
     timestamp := field ts |}.

(** The full table of the specification's example: 100, 80, 50. *)
Definition board_full : NetworkLeaderboard :=
  {| scoreCount := 3;
     scores := [entry 1 "ann" 100 "t01"; entry 2 "bob" 80 "t02";
                entry 3 "cat" 50 "t03"] |}.

Definition board_two : NetworkLeaderboard :=
  {| scoreCount := 2;
     scores := [entry 1 "ann" 100 "t01"; entry 2 "bob" 80 "t02";
                entry 0 "" 0 ""] |}.

(** [board_full] after the admission of 60 for "X". *)
Definition board_admitted : NetworkLeaderboard :=
  {| scoreCount := 3;
     scores := [entry 1 "ann" 100 "t01"; entry 2 "bob" 80 "t02";
                {| Leaderboard.identifier := 7;
                   name := text "X" ++ [NUL; "t"%char; NUL];
                   score := 60;
                   timestamp := text "t04" ++ [NUL] |}] |}.

(** A host where every path can be written and one file exists. *)
Definition host (filename : string) (bytes : list ascii) : FileSystem :=
  {| files := {[ filename := bytes ]}; writable := fun _ => true |}.

(** A file cut off behind its first entry: the count 1 and the entry
    "new", 20 of the 52 bytes of the record. *)
Definition short_file : list ascii :=
  u32_bytes 1 ++ @score_bytes small_header (entry 9 "new" 999 "t09").

(** What is in memory after [short_file] was loaded over [board_full]. *)
Definition board_mixed : NetworkLeaderboard :=
  {| scoreCount := 1;
     scores := [entry 9 "new" 999 "t09"; entry 2 "bob" 80 "t02";
                entry 3 "cat" 50 "t03"] |}.

(** The entries of [board_full] in another order. *)
Definition board_shuffled : NetworkLeaderboard :=
  {| scoreCount := 3;
     scores := [entry 3 "cat" 50 "t03"; entry 1 "ann" 100 "t01";
                entry 2 "bob" 80 "t02"] |}.

(** A table of two players, with one live record and with both. *)
Definition small_players : PlayerHeader := {| MAX_PLAYERS := 2 |}.

Definition party_one : NetworkGameState :=
  {| objects := objects store_one; objectCount := 1;
     playerData := [new_player 7 100 3; new_player 0 0 0]; playerCount := 1 |}.

Definition party_full : NetworkGameState :=
  {| objects := objects store_one; objectCount := 1;
     playerData := [new_player 7 100 3; new_player 8 250 2]; playerCount := 2 |}.

(** Two free slots. *)
Definition store_empty : NetworkGameState :=
  {| objects := [object 0 origin origin origin; object 0 origin origin origin];
     objectCount := 0; playerData := []; playerCount := 0 |}.

Definition moving (a : N) : NetworkTransform :=
  {| position := vec a a; velocity := vec (a + 1) (a + 1); scale := vec 1 1 |}.

(** The array of [board_full] under a count of four. *)
Definition board_over : NetworkLeaderboard :=
  {| scoreCount := 4; scores := scores board_full |}.

End Instances.

(** * The game-state store: upsert and round trip *)

Section GameStateProofs.
Import GameState.
Context `{Header}.

Lemma wrap32_small (n : N) : (n < UINT32_MOD)%N -> wrap32 n = n.
Proof. apply N.mod_small. Qed.

(** What the scan of [SetNetworkObject] does on a well-formed store: it
    stops at the first live slot that carries [id], or runs out. *)
Lemma SetNetworkObject_loop_spec s id pos vel scl n (x : N) :
  (x + N.of_nat n = objectCount s)%N ->
  (objectCount s < UINT32_MOD)%N ->
  (N.to_nat (objectCount s) <= length (objects s))%nat ->
  (forall j o, (j < x)%N -> objects s !! N.to_nat j = Some o -> identifier o <> id) ->
  (SetNetworkObject_loop s id pos vel scl n x = Ok None /\ no_live_match s id)
  \/ exists k o, first_live_match s id k o /\
       SetNetworkObject_loop s id pos vel scl n x =
         Ok (Some (set_objects s (<[N.to_nat k := overwrite o pos vel scl]> (objects s)))).
Proof.
  revert x. induction n as [|n IH]; intros x Hx Hc Hlen Hbefore.
  - left. split; [reflexivity|].
    intros j o Hj. apply Hbefore. lia.
  - simpl.
    destruct (objects s !! N.to_nat x) as [o|] eqn:Ho.
    2:{ apply lookup_ge_None in Ho. lia. }
    destruct (identifier o =? id)%N eqn:Hid.
    + right. exists x, o. apply N.eqb_eq in Hid.
      split; [|reflexivity].
      repeat split; auto. lia.
    + apply N.eqb_neq in Hid.
      rewrite wrap32_small by lia.
      apply IH; auto; [lia|].
      intros j o' Hj Ho'.
      destruct (N.eq_dec j x) as [->|Hne].
      * rewrite Ho in Ho'. by inversion Ho'; subst.
      * apply (Hbefore j); auto. lia.
Qed.

(** A hit of the scan of [SetNetworkObject] is read back by the scan of
    [GetNetworkObject]. *)
Lemma SetNetworkObject_loop_hit s id pos vel scl n x s' :
  SetNetworkObject_loop s id pos vel scl n x = Ok (Some s') ->
  objectCount s' = objectCount s /\
  (exists k o, objects s !! N.to_nat k = Some o /\ identifier o = id /\
     objects s' = <[N.to_nat k := overwrite o pos vel scl]> (objects s)) /\
  GetNetworkObject_loop s' id n x =
    Ok (Some {| position := pos; velocity := vel; scale := scl |}).
Proof.
  revert x. induction n as [|n IH]; intros x; simpl; [discriminate|].
  destruct (objects s !! N.to_nat x) as [o|] eqn:Ho; [|discriminate].
  destruct (identifier o =? id)%N eqn:Hid.
  - intros [= <-]. apply N.eqb_eq in Hid. simpl.
    split; [reflexivity|]. split; [by exists x, o|].
    rewrite list_lookup_insert_eq by (by eapply lookup_lt_Some).
    simpl. by rewrite Hid, N.eqb_refl.
  - intros Hloop. destruct (IH _ Hloop) as (Hc & (k & o' & Hk & Hido' & Hobjs) & Hget).
    split; [done|]. split; [by exists k, o'|].
    rewrite Hobjs.
    destruct (decide (N.to_nat k = N.to_nat x)) as [Heq|Hne].
    + rewrite Heq, Ho in Hk. inversion Hk; subst o'.
      apply N.eqb_neq in Hid. done.
    + rewrite list_lookup_insert_ne by done. by rewrite Ho, Hid.
Qed.

(** A scan of [SetNetworkObject] that runs out saw only other identifiers;
    the entry appended behind the slots it saw is found by the scan of
    [GetNetworkObject] one iteration later. *)
Lemma SetNetworkObject_loop_miss s id pos vel scl n (x : N) s' :
  SetNetworkObject_loop s id pos vel scl n x = Ok None ->
  (x + N.of_nat n = objectCount s)%N ->
  (objectCount s + 1 < UINT32_MOD)%N ->
  objects s' =
    <[N.to_nat (objectCount s) :=
        {| identifier := id;
           transform := {| position := pos; velocity := vel; scale := scl |} |}]>
      (objects s) ->
  (N.to_nat (objectCount s) < length (objects s))%nat ->
  GetNetworkObject_loop s' id (S n) x =
    Ok (Some {| position := pos; velocity := vel; scale := scl |}).
Proof.
  revert x. induction n as [|n IH]; intros x Hloop Hx Hc Hobjs Hlen.
  - simpl. replace x with (objectCount s) by lia.
    rewrite Hobjs, list_lookup_insert_eq by done. simpl.
    by rewrite N.eqb_refl.
  - simpl in Hloop.
    destruct (objects s !! N.to_nat x) as [o|] eqn:Ho; [|discriminate].
    destruct (identifier o =? id)%N eqn:Hid; [discriminate|].
    rewrite wrap32_small in Hloop by lia.
    specialize (IH _ Hloop ltac:(lia) Hc Hobjs Hlen).
    change (GetNetworkObject_loop s' id (S (S n)) x) with
      (match objects s' !! N.to_nat x with
       | None => OutOfBounds
       | Some o =>
           if (identifier o =? id)%N then Ok (Some (transform o))
           else GetNetworkObject_loop s' id (S n) (wrap32 (x + 1))
       end).
    rewrite Hobjs, list_lookup_insert_ne by lia.
    rewrite Ho, Hid, wrap32_small by lia. exact IH.
Qed.

(** C3. [SetNetworkObject] is an upsert.  On a store whose array has
    [MAX_NETWORK_OBJECTS] slots and whose count is within it: when a live
    slot carries [id], the first such slot keeps its identifier, gets the
    new transform and the call returns [true], whatever the count; when no
    live slot carries [id] and the count is below the capacity, the entry
    is written behind the live slots, the count grows by one and the call
    returns [true]; when no live slot carries [id] and the store is full,
    the call returns [false] and the store is the one it was given. *)
Theorem SetNetworkObject_upsert (s : NetworkGameState) (id : N) (pos vel scl : AEVec2) :
  well_formed s ->
  (has_live s id ->
     exists k o, first_live_match s id k o /\
       SetNetworkObject s id pos vel scl =
         Ok (true, set_objects s (<[N.to_nat k := overwrite o pos vel scl]> (objects s))))
  /\ (no_live_match s id -> (objectCount s < MAX_NETWORK_OBJECTS)%N ->
        SetNetworkObject s id pos vel scl =
          Ok (true,
              {| objects :=
                   <[N.to_nat (objectCount s) :=
                       {| identifier := id;
                          transform := {| position := pos; velocity := vel;
                                          scale := scl |} |}]> (objects s);
                 objectCount := (objectCount s + 1)%N;
                 playerData := playerData s;
                 playerCount := playerCount s |}))
  /\ (no_live_match s id -> objectCount s = MAX_NETWORK_OBJECTS ->
        SetNetworkObject s id pos vel scl = Ok (false, s)).
Proof.
  intros (Hlen & Hcount & Hmax).
  assert (forall j o, (j < 0)%N -> objects s !! N.to_nat j = Some o ->
            identifier o <> id) as Hbefore by (intros; lia).
  destruct (SetNetworkObject_loop_spec s id pos vel scl
              (N.to_nat (objectCount s)) 0%N ltac:(lia) ltac:(lia) ltac:(lia) Hbefore)
    as [[Hloop Hnone]|(k & o & Hfirst & Hloop)].
  - split; [|split].
    + intros (k & o & Hk & Ho & Hid). exfalso. by eapply Hnone.
    + intros _ Hlt. unfold SetNetworkObject. rewrite Hloop. simpl.
      apply N.ltb_lt in Hlt as Hlt'. rewrite Hlt'.
      destruct (objects s !! N.to_nat (objectCount s)) eqn:Ho.
      * by rewrite wrap32_small by lia.
      * apply lookup_ge_None in Ho. lia.
    + intros _ Heq. unfold SetNetworkObject. rewrite Hloop. simpl.
      by rewrite Heq, N.ltb_irrefl.
  - assert (~ no_live_match s id) as Hsome.
    { intros Hnone. destruct Hfirst as ((Hk & Ho & Hid) & _). by eapply Hnone. }
    split; [|split]; try done.
    intros _. exists k, o. split; [done|].
    unfold SetNetworkObject. by rewrite Hloop.
Qed.

(** C4. Round trip: a [SetNetworkObject] that returned [true] is followed
    by a [GetNetworkObject] of the same identifier that returns [true] and
    hands out the position, velocity and scale just written, whatever the
    caller's variables held.  The capacity is one that [objectCount], a
    [uint32_t], can hold. *)
Theorem SetNetworkObject_GetNetworkObject (s s' : NetworkGameState) (id : N)
    (pos vel scl pos0 vel0 scl0 : AEVec2) :
  (MAX_NETWORK_OBJECTS < UINT32_MOD)%N ->
  SetNetworkObject s id pos vel scl = Ok (true, s') ->
  GetNetworkObject s' id pos0 vel0 scl0 = Ok (true, (pos, vel, scl)).
Proof.
  intros Hmax. unfold SetNetworkObject.
  destruct (SetNetworkObject_loop s id pos vel scl (N.to_nat (objectCount s)) 0)
    as [[s1|]| |] eqn:Hloop; simpl; try discriminate.
  - intros [= <-].
    destruct (SetNetworkObject_loop_hit _ _ _ _ _ _ _ _ Hloop) as (Hc & _ & Hget).
    unfold GetNetworkObject. by rewrite Hc, Hget.
  - destruct (objectCount s <? MAX_NETWORK_OBJECTS)%N eqn:Hlt; [|discriminate].
    apply N.ltb_lt in Hlt.
    destruct (objects s !! N.to_nat (objectCount s)) as [o|] eqn:Ho; [|discriminate].
    intros [= <-]. unfold GetNetworkObject. simpl objectCount.
    rewrite wrap32_small by lia.
    replace (N.to_nat (objectCount s + 1)) with (S (N.to_nat (objectCount s))) by lia.
    erewrite SetNetworkObject_loop_miss; eauto; try lia.
    by eapply lookup_lt_Some.
Qed.

End GameStateProofs.

(** * The leaderboard: admission, order and text fields *)

Section SortProofs.
Import Leaderboard.

Lemma sort_insert_Permutation {A} (comp : A -> A -> bool) a l :
  sort_insert comp a l ≡ₚ a :: l.
Proof.
  induction l as [|b l IH]; simpl; [done|].
  destruct (comp a b); [done|].
  rewrite IH. apply Permutation_swap.
Qed.

Lemma std_sort_Permutation {A} (comp : A -> A -> bool) l : std_sort comp l ≡ₚ l.
Proof.
  induction l as [|a l IH]; simpl; [done|].
  unfold std_sort in *. simpl. by rewrite sort_insert_Permutation, IH.
Qed.

Lemma std_sort_length {A} (comp : A -> A -> bool) l :
  length (std_sort comp l) = length l.
Proof. apply Permutation_length, std_sort_Permutation. Qed.

Lemma sort_insert_HdRel a b l :
  score_ge b a -> HdRel score_ge b l -> HdRel score_ge b (sort_insert by_score a l).
Proof.
  intros Hba Hl. destruct l as [|c l]; simpl; [by constructor|].
  destruct (by_score a c); constructor; [done|].
  by inversion Hl.
Qed.

Lemma sort_insert_Sorted a l :
  Sorted score_ge l -> Sorted score_ge (sort_insert by_score a l).
Proof.
  induction 1 as [|b l Hl IH Hb]; simpl; [by repeat constructor|].
  destruct (by_score a b) eqn:Hab; unfold by_score in Hab.
  - apply N.ltb_lt in Hab. repeat constructor; try done.
    unfold score_ge. lia.
  - apply N.ltb_ge in Hab. constructor; [done|].
    by apply sort_insert_HdRel.
Qed.

Lemma std_sort_Sorted l : Sorted score_ge (std_sort by_score l).
Proof.
  induction l as [|a l IH]; [constructor|].
  unfold std_sort in *. simpl. by apply sort_insert_Sorted.
Qed.

(** [sort_scores] orders the first [count] slots and leaves the rest. *)
Lemma sort_scores_Ok arr count arr' :
  sort_scores arr count = Ok arr' ->
  (N.to_nat count <= length arr)%nat /\
  take (N.to_nat count) arr' = std_sort by_score (take (N.to_nat count) arr) /\
  drop (N.to_nat count) arr' = drop (N.to_nat count) arr.
Proof.
  unfold sort_scores.
  destruct (N.to_nat count <=? length arr)%nat eqn:Hle; [|discriminate].
  apply Nat.leb_le in Hle. intros [= <-]. split; [done|].
  assert (length (std_sort by_score (take (N.to_nat count) arr)) = N.to_nat count)
    as Hlen by (rewrite std_sort_length, length_take; lia).
  split.
  - by rewrite take_app_length'.
  - by rewrite drop_app_length'.
Qed.

Lemma sort_scores_in_range arr count :
  (N.to_nat count <= length arr)%nat ->
  sort_scores arr count =
    Ok (std_sort by_score (take (N.to_nat count) arr) ++ drop (N.to_nat count) arr).
Proof.
  intros Hle. unfold sort_scores.
  by rewrite (proj2 (Nat.leb_le _ _) Hle).
Qed.

End SortProofs.

Section TextProofs.
Import Leaderboard.

Lemma cstring_no_NUL s : Forall (fun c => c <> NUL) (cstring s).
Proof.
  induction s as [|c s IH]; simpl; [constructor|].
  destruct (Ascii.eqb c NUL) eqn:Hc; constructor; [|done].
  by apply Ascii.eqb_neq.
Qed.

Lemma read_cstring_app l rest :
  Forall (fun c => c <> NUL) l -> read_cstring (l ++ NUL :: rest) = Ok l.
Proof.
  induction 1 as [|c l Hc _ IH]; simpl; [done|].
  apply Ascii.eqb_neq in Hc. by rewrite Hc, IH.
Qed.

(** What a [strncpy_s] that fits stores: the truncated string, readable
    back as a C string, in a destination that keeps its size. *)
Lemma strncpy_s_fits size dest src count :
  fits size src count ->
  exists dest', strncpy_s size dest src count = Ok dest' /\
    read_cstring dest' = Ok (take count (cstring src)) /\
    (length dest = size -> length dest' = size).
Proof.
  unfold fits, strncpy_s. intros Hfit.
  apply Nat.ltb_lt in Hfit as Hfit'. rewrite Hfit'.
  eexists. split; [reflexivity|].
  assert (take (count `min` length (cstring src)) (cstring src) =
          take count (cstring src)) as Htake.
  { destruct (Nat.le_ge_cases count (length (cstring src))).
    - by rewrite Nat.min_l.
    - rewrite Nat.min_r by done. by rewrite !take_ge by lia. }
  split.
  - rewrite Htake. apply read_cstring_app, Forall_take, cstring_no_NUL.
  - intros Hlen. rewrite length_app, length_take. simpl. rewrite length_drop. lia.
Qed.

(** A [strncpy_s] that does not fit ends in the invalid-parameter handler. *)
Lemma strncpy_s_overlong size dest src count :
  ~ fits size src count -> strncpy_s size dest src count = InvalidParameter.
Proof.
  unfold fits, strncpy_s. intros Hfit.
  by rewrite (proj2 (Nat.ltb_ge _ _)) by lia.
Qed.

Context `{Header}.

Lemma write_entry_fits entry id nm sc ts :
  fits NAME_SIZE nm MAX_NAME_LENGTH ->
  fits TIMESTAMP_SIZE ts TIME_FORMAT ->
  exists entry', write_entry entry id nm sc ts = Ok entry' /\
    identifier entry' = id /\ score entry' = sc /\
    read_cstring (name entry') = Ok (take MAX_NAME_LENGTH (cstring nm)) /\
    read_cstring (timestamp entry') = Ok (take TIME_FORMAT (cstring ts)) /\
    (sized_score entry -> sized_score entry').
Proof.
  intros Hn Ht. unfold write_entry.
  destruct (strncpy_s_fits NAME_SIZE (name entry) nm MAX_NAME_LENGTH Hn)
    as (n' & -> & Hrn & Hln).
  destruct (strncpy_s_fits TIMESTAMP_SIZE (timestamp entry) ts TIME_FORMAT Ht)
    as (t' & -> & Hrt & Hlt).
  simpl. eexists. split; [reflexivity|]. simpl.
  do 4 (split; [done|]).
  intros [Hsn Hst]. split; simpl; auto.
Qed.

End TextProofs.

Section AdmissionProofs.
Import Leaderboard.
Context `{Header}.

(** C1. A full leaderboard.  With the array at its declared length and
    [scoreCount = MAX_LEADERBOARD_SCORES], the new score is compared with
    the entry in the last live slot: a score that is not greater is turned
    down, [false] is returned and the leaderboard is the one it was given;
    a greater score, with a name and a timestamp that [strncpy_s] can store,
    takes the place of exactly that entry (identifier, name, score and
    timestamp), the slice is sorted again by non-increasing score, the count
    stays and [true] is returned. *)
Theorem AddScoreToLeaderboard_full (lb : NetworkLeaderboard) (id : N)
    (nm : list ascii) (sc : N) (ts : list ascii) :
  length (scores lb) = N.to_nat MAX_LEADERBOARD_SCORES ->
  (0 < MAX_LEADERBOARD_SCORES)%N ->
  scoreCount lb = MAX_LEADERBOARD_SCORES ->
  exists lowest,
    last (live lb) = Some lowest /\
    ((sc <= score lowest)%N ->
       AddScoreToLeaderboard lb id nm sc ts = Ok (false, lb)) /\
    ((score lowest < sc)%N ->
     fits NAME_SIZE nm MAX_NAME_LENGTH ->
     fits TIMESTAMP_SIZE ts TIME_FORMAT ->
       exists entry' lb',
         AddScoreToLeaderboard lb id nm sc ts = Ok (true, lb') /\
         write_entry lowest id nm sc ts = Ok entry' /\
         identifier entry' = id /\ score entry' = sc /\
         read_cstring (name entry') = Ok (take MAX_NAME_LENGTH (cstring nm)) /\
         read_cstring (timestamp entry') = Ok (take TIME_FORMAT (cstring ts)) /\
         scoreCount lb' = scoreCount lb /\
         live lb' = scores lb' /\
         scores lb' ≡ₚ
           take (N.to_nat (MAX_LEADERBOARD_SCORES - 1)) (scores lb) ++ [entry'] /\
         sorted_live lb').
Proof.
  intros Hlen Hmax Hcount.
  set (i := N.to_nat (MAX_LEADERBOARD_SCORES - 1)).
  assert (i < length (scores lb))%nat as Hi by (unfold i; lia).
  destruct (lookup_lt_is_Some_2 _ _ Hi) as [lowest Hlow].
  assert (live lb = scores lb) as Hlive.
  { unfold live. rewrite take_ge; [done|lia]. }
  exists lowest. split.
  { rewrite Hlive, last_lookup.
    replace (Init.Nat.pred (length (scores lb))) with i by (unfold i; lia). done. }
  unfold AddScoreToLeaderboard.
  rewrite Hcount, N.ltb_irrefl. fold i. rewrite Hlow. split.
  - intros Hle. by rewrite (proj2 (N.ltb_ge _ _) Hle).
  - intros Hlt Hn Ht. rewrite (proj2 (N.ltb_lt _ _) Hlt).
    destruct (write_entry_fits lowest id nm sc ts Hn Ht)
      as (entry' & Hw & Hid & Hsc & Hrn & Hrt & _).
    rewrite Hw. simpl.
    rewrite sort_scores_in_range by (rewrite length_insert; lia).
    simpl. exists entry'. eexists. split; [reflexivity|].
    repeat (split; [done|]). simpl.
    assert (take (N.to_nat MAX_LEADERBOARD_SCORES) (<[i:=entry']> (scores lb)) =
            <[i:=entry']> (scores lb)) as Htake
      by (rewrite take_ge; [done|rewrite length_insert; lia]).
    assert (drop (N.to_nat MAX_LEADERBOARD_SCORES) (<[i:=entry']> (scores lb)) = [])
      as Hdrop by (rewrite drop_ge; [done|rewrite length_insert; lia]).
    rewrite Htake, Hdrop, app_nil_r.
    split; [|split].
    + unfold live. simpl. rewrite take_ge; [done|].
      rewrite std_sort_length, length_insert. lia.
    + rewrite std_sort_Permutation.
      rewrite <- (take_drop_middle _ _ _ Hlow) at 1.
      rewrite insert_app_r_alt by (rewrite length_take; lia).
      rewrite length_take, Nat.min_l, Nat.sub_diag by lia. simpl.
      replace (drop (S i) (scores lb)) with (@nil NetworkScore); [done|].
      rewrite drop_ge; [done|unfold i; lia].
    + unfold sorted_live, live. simpl. rewrite take_ge.
      * apply std_sort_Sorted.
      * rewrite std_sort_length, length_insert. lia.
Qed.

Lemma sort_scores_Permutation arr count arr' :
  sort_scores arr count = Ok arr' -> arr' ≡ₚ arr.
Proof.
  unfold sort_scores.
  destruct (N.to_nat count <=? length arr)%nat; [|discriminate].
  intros [= <-]. by rewrite std_sort_Permutation, take_drop.
Qed.


(** A text field declared with no more elements than
    the count passed to [strncpy_s] cannot take a name of that many
    characters.  On a leaderboard with a free slot the call ends in the
    invalid-parameter handler. *)
Lemma AddScoreToLeaderboard_overlong_name lb id nm sc ts entry :
  (NAME_SIZE <= MAX_NAME_LENGTH)%nat ->
  (NAME_SIZE <= length (cstring nm))%nat ->
  (scoreCount lb < MAX_LEADERBOARD_SCORES)%N ->
  scores lb !! N.to_nat (scoreCount lb) = Some entry ->
  AddScoreToLeaderboard lb id nm sc ts = InvalidParameter.
Proof.
  intros Hsize Hlong Hlt Hentry. unfold AddScoreToLeaderboard.
  rewrite (proj2 (N.ltb_lt _ _) Hlt), Hentry. unfold write_entry.
  rewrite (strncpy_s_overlong NAME_SIZE (name entry) nm MAX_NAME_LENGTH);
    [reflexivity|]. unfold fits. lia.
Qed.

(** C2, as the code has it.  Every [AddScoreToLeaderboard] that admits the
    score leaves the live slice [scores[0..scoreCount)] sorted by
    non-increasing score, from any state; and every call that returns,
    admitting or not, keeps a sorted live slice sorted. *)
Theorem AddScoreToLeaderboard_sorted (lb lb' : NetworkLeaderboard) (id : N)
    (nm : list ascii) (sc : N) (ts : list ascii) (r : bool) :
  AddScoreToLeaderboard lb id nm sc ts = Ok (r, lb') ->
  (r = true -> sorted_live lb') /\ (sorted_live lb -> sorted_live lb').
Proof.
  unfold AddScoreToLeaderboard.
  assert (forall arr count arr',
            sort_scores arr count = Ok arr' ->
            sorted_live {| scoreCount := count; scores := arr' |}) as Hsort.
  { intros arr count arr' Hs.
    destruct (sort_scores_Ok _ _ _ Hs) as (_ & Htake & _).
    unfold sorted_live, live. simpl. rewrite Htake. apply std_sort_Sorted. }
  destruct (scoreCount lb <? MAX_LEADERBOARD_SCORES)%N.
  - destruct (scores lb !! N.to_nat (scoreCount lb)) as [entry|]; [|discriminate].
    destruct (write_entry entry id nm sc ts) as [entry'| |]; simpl; try discriminate.
    destruct (sort_scores _ _) as [arr| |] eqn:Hs; simpl; try discriminate.
    intros [= <- <-]. split; intros _; by eapply Hsort.
  - destruct (scores lb !! N.to_nat (MAX_LEADERBOARD_SCORES - 1)) as [entry|];
      [|discriminate].
    destruct (score entry <? sc)%N.
    + destruct (write_entry entry id nm sc ts) as [entry'| |]; simpl; try discriminate.
      destruct (sort_scores _ _) as [arr| |] eqn:Hs; simpl; try discriminate.
      intros [= <- <-]. split; intros _; by eapply Hsort.
    + intros [= <- <-]. split; [discriminate|done].
Qed.

End AdmissionProofs.

(** * The leaderboard: the top players *)

Section TopPlayersProofs.
Import Leaderboard.
Context `{Header}.

Lemma read_cstring_terminated buf :
  terminated buf -> read_cstring buf = Ok (cstring buf).
Proof.
  unfold terminated.
  induction buf as [|c buf IH]; intros Hin; [by apply elem_of_nil in Hin|].
  cbn [read_cstring cstring]. destruct (Ascii.eqb c NUL) eqn:Hc; [done|].
  apply elem_of_cons in Hin as [Heq|Hin].
  - rewrite Heq, Ascii.eqb_refl in Hc. discriminate.
  - by rewrite IH.
Qed.

(** The loop appends one line per slot, ranks counting from [x + 1]. *)
Lemma GetTopPlayers_loop_spec lb n (x : N) acc :
  (x + N.of_nat n < UINT32_MOD)%N ->
  (forall j, (j < n)%nat ->
     exists e, scores lb !! (N.to_nat x + j)%nat = Some e /\
       terminated (name e) /\ terminated (timestamp e)) ->
  exists out,
    GetTopPlayers_loop lb n x acc = Ok (acc ++ out) /\
    length out = n /\
    forall j, (j < n)%nat ->
      exists e, scores lb !! (N.to_nat x + j)%nat = Some e /\
        out !! j = Some (rendered (x + N.of_nat j + 1) e).
Proof.
  revert x acc. induction n as [|n IH]; intros x acc Hx Hslots.
  - exists []. simpl. rewrite app_nil_r. repeat split; auto. intros j Hj. lia.
  - destruct (Hslots 0%nat ltac:(lia)) as (e & He & Hn & Ht).
    rewrite Nat.add_0_r in He.
    simpl. rewrite He.
    rewrite (read_cstring_terminated _ Hn), (read_cstring_terminated _ Ht). simpl.
    rewrite !wrap32_small by lia.
    destruct (IH (x + 1)%N
                (acc ++ [pretty (x + 1)%N +:+ ") "
                           +:+ string_of_list_ascii (cstring (name e)) +:+ ": "
                           +:+ pretty (score e) +:+ " ["
                           +:+ string_of_list_ascii (cstring (timestamp e)) +:+ "]"]))
      as (out & Hloop & Hlen & Hout).
    { lia. }
    { intros j Hj. destruct (Hslots (S j) ltac:(lia)) as (e' & He' & Hterm).
      exists e'. split; [|done].
      by replace (N.to_nat (x + 1) + j)%nat with (N.to_nat x + S j)%nat by lia. }
    exists (rendered (x + 1) e :: out).
    split; [|split].
    + rewrite Hloop. by rewrite <- app_assoc.
    + simpl. lia.
    + intros [|j] Hj.
      * exists e. rewrite Nat.add_0_r, N.add_0_r. done.
      * destruct (Hout j ltac:(lia)) as (e' & He' & Hj').
        exists e'. split.
        -- by replace (N.to_nat x + S j)%nat with (N.to_nat (x + 1) + j)%nat by lia.
        -- simpl. rewrite Hj'.
           by replace (x + 1 + N.of_nat j + 1)%N with (x + N.of_nat (S j) + 1)%N by lia.
Qed.

(** C8. The top players.  On a leaderboard whose count is within the array
    and whose live text fields are terminated, the call returns
    [min(n, scoreCount)] lines in stored order; the line at index [x] is
    ["<rank>) <name>: <score> [<timestamp>]"] with rank [x + 1] and the
    name, score and timestamp of the entry stored in slot [x]; the
    leaderboard is the one it was given. *)
Theorem GetTopPlayersFromLeaderboard_lines (lb : NetworkLeaderboard) (n : N) :
  (scoreCount lb < UINT32_MOD)%N ->
  (N.to_nat (scoreCount lb) <= length (scores lb))%nat ->
  Forall (fun e => terminated (name e) /\ terminated (timestamp e)) (live lb) ->
  exists topScores,
    GetTopPlayersFromLeaderboard lb n = Ok (topScores, lb) /\
    length topScores = N.to_nat (N.min n (scoreCount lb)) /\
    forall x, (x < length topScores)%nat ->
      exists e, scores lb !! x = Some e /\
        topScores !! x = Some (rendered (N.of_nat x + 1) e).
Proof.
  intros Hcount Hlen Hterm. unfold GetTopPlayersFromLeaderboard.
  set (count := if (n <? scoreCount lb)%N then n else scoreCount lb).
  assert (count = N.min n (scoreCount lb)) as Hmin.
  { unfold count. destruct (n <? scoreCount lb)%N eqn:Hlt.
    - apply N.ltb_lt in Hlt. lia.
    - apply N.ltb_ge in Hlt. lia. }
  destruct (GetTopPlayers_loop_spec lb (N.to_nat count) 0%N [])
    as (out & Hloop & Hout & Hlines).
  { lia. }
  { intros j Hj.
    destruct (lookup_lt_is_Some_2 (live lb) j) as [e He].
    { unfold live. rewrite length_take. lia. }
    exists e. rewrite Forall_lookup in Hterm. split; [|by eapply Hterm].
    unfold live in He. apply lookup_take_Some in He as [He _]. done. }
  exists out. rewrite Hloop. simpl. split; [done|]. split; [lia|].
  intros x Hx. destruct (Hlines x ltac:(lia)) as (e & He & Hline).
  exists e. simpl in He. split; [done|].
  rewrite Hline. by rewrite N.add_0_l.
Qed.

End TopPlayersProofs.

(** * The leaderboard: persistence *)

Section PersistenceProofs.
Import Leaderboard.
Context `{Header}.

Lemma u32_bytes_length n : length (u32_bytes n) = 4%nat.
Proof. reflexivity. Qed.

Lemma bytes_u32_u32_bytes n rest :
  (n < UINT32_MOD)%N -> bytes_u32 (u32_bytes n ++ rest) = n.
Proof.
  unfold UINT32_MOD, bytes_u32, u32_bytes. intros Hn.
  cbn [firstn app foldr]. rewrite take_0. cbn [foldr].
  rewrite !N_ascii_embedding by (apply N.mod_lt; lia).
  zify. Z.to_euclidean_division_equations. lia.
Qed.

Lemma score_bytes_length e : sized_score e -> length (score_bytes e) = SCORE_SIZE.
Proof.
  intros [Hn Ht]. unfold score_bytes, SCORE_SIZE.
  rewrite !length_app, !length_replicate, !u32_bytes_length, Hn, Ht. lia.
Qed.

(** An entry is read back from its bytes, whatever follows them. *)
Lemma score_of_bytes_score_bytes e rest :
  typed_score e -> score_of_bytes (score_bytes e ++ rest) = e.
Proof.
  intros ([Hn Ht] & Hid & Hsc). destruct e as [i n s t].
  unfold score_of_bytes, score_bytes. cbn [identifier name score timestamp] in *.
  assert (forall A (a b : list A) k, k = length a -> drop k (a ++ b) = b) as Hdrop
    by (intros; by apply drop_app_length').
  f_equal.
  - rewrite <- app_assoc. by apply bytes_u32_u32_bytes.
  - rewrite <- app_assoc, Hdrop by done.
    rewrite <- app_assoc. by apply take_app_length'.
  - rewrite <- !app_assoc.
    rewrite (app_assoc (u32_bytes i)), (app_assoc (u32_bytes i ++ n)).
    rewrite Hdrop.
    + by apply bytes_u32_u32_bytes.
    + rewrite !length_app, length_replicate, u32_bytes_length. lia.
  - rewrite <- !app_assoc.
    rewrite (app_assoc (u32_bytes i)), (app_assoc (u32_bytes i ++ n)),
      (app_assoc ((u32_bytes i ++ n) ++ _)).
    rewrite Hdrop.
    + by apply take_app_length'.
    + rewrite !length_app, length_replicate, !u32_bytes_length. lia.
Qed.

Lemma scores_of_bytes_score_bytes l rest :
  Forall typed_score l ->
  scores_of_bytes (length l) (concat (map score_bytes l) ++ rest) = l.
Proof.
  induction 1 as [|e l He _ IH]; [done|].
  cbn [length map concat scores_of_bytes].
  pose proof (score_bytes_length e (proj1 He)) as Hlen.
  rewrite <- app_assoc.
  rewrite take_app_length', drop_app_length' by done.
  rewrite IH. f_equal.
  rewrite <- (app_nil_r (score_bytes e)). by apply score_of_bytes_score_bytes.
Qed.

Lemma typed_sized lb : typed lb -> sized lb.
Proof.
  intros (_ & Hlen & Hall). split; [done|].
  eapply Forall_impl; [exact Hall|]. by intros e [He _].
Qed.

Lemma leaderboard_bytes_length lb :
  sized lb -> length (leaderboard_bytes lb) = LEADERBOARD_SIZE.
Proof.
  intros [Hlen Hall]. unfold leaderboard_bytes, LEADERBOARD_SIZE.
  rewrite length_app, u32_bytes_length, <- Hlen. f_equal.
  clear Hlen. induction Hall as [|e l He _ IH]; [done|].
  cbn [map concat length]. rewrite length_app, IH, score_bytes_length by done. lia.
Qed.

(** The aggregate is read back from its bytes, whatever follows them. *)
Lemma leaderboard_of_bytes_leaderboard_bytes lb rest :
  typed lb -> leaderboard_of_bytes (leaderboard_bytes lb ++ rest) = lb.
Proof.
  intros (Hc & Hlen & Hall). destruct lb as [c l].
  unfold leaderboard_of_bytes, leaderboard_bytes. cbn [scoreCount scores] in *.
  rewrite <- app_assoc. f_equal.
  - by apply bytes_u32_u32_bytes.
  - rewrite drop_app_length' by done. rewrite <- Hlen.
    by apply scores_of_bytes_score_bytes.
Qed.

(** Bytes behind the aggregate's size are not looked at. *)
Lemma scores_of_bytes_app n bs rest :
  (n * SCORE_SIZE <= length bs)%nat ->
  scores_of_bytes n (bs ++ rest) = scores_of_bytes n bs.
Proof.
  revert bs. induction n as [|n IH]; intros bs Hlen; [done|].
  cbn [scores_of_bytes].
  rewrite take_app_le, drop_app_le by lia.
  rewrite IH; [done|]. rewrite length_drop. lia.
Qed.

Lemma leaderboard_of_bytes_app bs rest :
  (LEADERBOARD_SIZE <= length bs)%nat ->
  leaderboard_of_bytes (bs ++ rest) = leaderboard_of_bytes bs.
Proof.
  unfold LEADERBOARD_SIZE, leaderboard_of_bytes, bytes_u32. intros Hlen.
  rewrite take_app_le, drop_app_le by lia.
  rewrite scores_of_bytes_app; [done|]. rewrite length_drop. lia.
Qed.

Lemma leaderboard_of_bytes_take bs :
  leaderboard_of_bytes (take LEADERBOARD_SIZE bs) = leaderboard_of_bytes bs.
Proof.
  destruct (Nat.le_gt_cases LEADERBOARD_SIZE (length bs)) as [Hle|Hgt].
  - rewrite <- (take_drop LEADERBOARD_SIZE bs) at 2.
    rewrite leaderboard_of_bytes_app; [done|]. rewrite length_take. lia.
  - by rewrite take_ge by lia.
Qed.

(** A load from a file that holds the whole record. *)
Lemma LoadLeaderboard_whole fs lb filename bytes :
  files fs !! filename = Some bytes ->
  (LEADERBOARD_SIZE <= length bytes)%nat ->
  LoadLeaderboard fs lb filename = leaderboard_of_bytes bytes.
Proof.
  intros Hfile Hlen. unfold LoadLeaderboard, istream_read. rewrite Hfile.
  rewrite leaderboard_of_bytes_app by (rewrite length_take; lia).
  apply leaderboard_of_bytes_take.
Qed.

(** The slot [i] of the array read from [bs]. *)
Lemma scores_of_bytes_lookup n bs i :
  (i < n)%nat ->
  scores_of_bytes n bs !! i =
    Some (score_of_bytes (take SCORE_SIZE (drop (i * SCORE_SIZE) bs))).
Proof.
  revert bs i. induction n as [|n IH]; intros bs i Hi; [lia|].
  destruct i as [|i]; cbn [scores_of_bytes]; [done|].
  simpl lookup. rewrite IH by lia. by rewrite drop_drop.
Qed.

(** A load from a shorter file: what the file covers is overwritten. *)
Lemma LoadLeaderboard_short fs lb filename bytes :
  files fs !! filename = Some bytes ->
  (length bytes < LEADERBOARD_SIZE)%nat ->
  LoadLeaderboard fs lb filename =
    leaderboard_of_bytes (bytes ++ drop (length bytes) (leaderboard_bytes lb)).
Proof.
  intros Hfile Hlen. unfold LoadLeaderboard, istream_read. rewrite Hfile.
  by rewrite take_ge, Nat.min_r by lia.
Qed.

(** A load from a shorter file keeps every entry that lies behind the end
    of the file. *)
Lemma LoadLeaderboard_short_keeps fs lb filename bytes i e :
  typed lb ->
  files fs !! filename = Some bytes ->
  (length bytes < LEADERBOARD_SIZE)%nat ->
  scores lb !! i = Some e ->
  (length bytes <= 4 + i * SCORE_SIZE)%nat ->
  scores (LoadLeaderboard fs lb filename) !! i = Some e.
Proof.
  intros Htyped Hfile Hlen He Hi.
  assert (i < N.to_nat MAX_LEADERBOARD_SCORES)%nat as Hslot.
  { destruct Htyped as (_ & <- & _). by eapply lookup_lt_Some. }
  rewrite <- He.
  rewrite <- (leaderboard_of_bytes_leaderboard_bytes lb [] Htyped) at 2.
  rewrite app_nil_r, (LoadLeaderboard_short _ _ _ _ Hfile Hlen).
  unfold leaderboard_of_bytes. cbn [scores].
  rewrite !scores_of_bytes_lookup by done. rewrite !drop_drop.
  do 3 f_equal.
  rewrite drop_app_ge, drop_drop by lia. f_equal. lia.
Qed.

(** C5, as the code has it.  A file that cannot be opened leaves the
    leaderboard untouched, and a file that holds the whole record replaces
    it by what the file encodes.  A shorter file overwrites the leading
    bytes of the aggregate, as many as the file has, and the bytes behind
    them stay: the count is the file's as soon as the file has four bytes,
    and every entry that lies behind the end of the file is the old one. *)
Theorem LoadLeaderboard_cases (fs : FileSystem) (lb : NetworkLeaderboard)
    (filename : string) :
  (files fs !! filename = None -> LoadLeaderboard fs lb filename = lb) /\
  (forall bytes, files fs !! filename = Some bytes ->
     (LEADERBOARD_SIZE <= length bytes)%nat ->
     LoadLeaderboard fs lb filename = leaderboard_of_bytes bytes) /\
  (forall bytes, files fs !! filename = Some bytes ->
     (length bytes < LEADERBOARD_SIZE)%nat ->
     LoadLeaderboard fs lb filename =
       leaderboard_of_bytes (bytes ++ drop (length bytes) (leaderboard_bytes lb)) /\
     ((4 <= length bytes)%nat ->
        scoreCount (LoadLeaderboard fs lb filename) = bytes_u32 bytes) /\
     (typed lb ->
        forall i e, scores lb !! i = Some e ->
          (length bytes <= 4 + i * SCORE_SIZE)%nat ->
          scores (LoadLeaderboard fs lb filename) !! i = Some e)).
Proof.
  split; [|split].
  - intros Hfile. unfold LoadLeaderboard. by rewrite Hfile.
  - intros bytes Hfile Hlen. by apply LoadLeaderboard_whole.
  - intros bytes Hfile Hlen. split; [|split].
    + by apply LoadLeaderboard_short.
    + intros Hfour. rewrite (LoadLeaderboard_short _ _ _ _ Hfile Hlen).
      unfold leaderboard_of_bytes, bytes_u32. cbn [scoreCount].
      by rewrite take_app_le by lia.
    + intros Htyped i e He Hi. by eapply LoadLeaderboard_short_keeps.
Qed.

(** C7. Round trip through a file.  When the file can be opened for
    writing, a [SaveLeaderboard] followed by a [LoadLeaderboard] of the same
    path yields the saved leaderboard: the same count and the same entries
    (identifier, name, score, timestamp, every slot of the backing array) in
    the same order, whatever the memory held when the load started, the
    saved leaderboard itself in particular. *)
Theorem SaveLeaderboard_LoadLeaderboard (fs : FileSystem)
    (lb lb0 : NetworkLeaderboard) (filename : string) :
  typed lb ->
  writable fs filename = true ->
  LoadLeaderboard (SaveLeaderboard fs lb filename) lb0 filename = lb.
Proof.
  intros Htyped Hw. unfold SaveLeaderboard. rewrite Hw.
  rewrite (LoadLeaderboard_whole _ _ _ (leaderboard_bytes lb)).
  - rewrite <- (app_nil_r (leaderboard_bytes lb)).
    by apply leaderboard_of_bytes_leaderboard_bytes.
  - simpl. apply lookup_insert_eq.
  - by rewrite leaderboard_bytes_length by by apply typed_sized.
Qed.

Lemma blank_score_typed sc : (sc < UINT32_MOD)%N -> typed_score (blank_score sc).
Proof.
  intros Hsc. unfold typed_score, sized_score, blank_score. simpl.
  rewrite !length_replicate. unfold UINT32_MOD in *. repeat split; auto; lia.
Qed.

Lemma overfull_typed :
  (MAX_LEADERBOARD_SCORES + 1 < UINT32_MOD)%N -> typed overfull.
Proof.
  intros Hmax. unfold typed, overfull. simpl. split; [done|]. split.
  - by rewrite length_replicate.
  - apply Forall_replicate, blank_score_typed. unfold UINT32_MOD. lia.
Qed.

Lemma misordered_typed :
  (2 <= MAX_LEADERBOARD_SCORES)%N -> typed misordered.
Proof.
  intros Hmin. unfold typed, misordered. simpl. split; [unfold UINT32_MOD; lia|]. split.
  - rewrite length_replicate. lia.
  - repeat constructor; try (apply blank_score_typed; unfold UINT32_MOD; lia).
    apply Forall_replicate, blank_score_typed. unfold UINT32_MOD. lia.
Qed.

Lemma misordered_not_sorted : ~ sorted_live misordered.
Proof.
  unfold sorted_live, live, misordered. simpl.
  change (Pos.to_nat 2) with 2%nat. cbn [firstn]. intros Hs.
  apply Sorted_inv in Hs as [_ Hhd]. apply HdRel_inv in Hhd.
  unfold score_ge, blank_score in Hhd. simpl in Hhd. lia.
Qed.

(** A file that starts with the bytes of a record is loaded as that
    record. *)
Lemma LoadLeaderboard_record fs lb filename lb' extra :
  typed lb' ->
  files fs !! filename = Some (leaderboard_bytes lb' ++ extra) ->
  LoadLeaderboard fs lb filename = lb'.
Proof.
  intros Htyped Hfile.
  rewrite (LoadLeaderboard_whole _ _ _ _ Hfile).
  - by apply leaderboard_of_bytes_leaderboard_bytes.
  - rewrite length_app, leaderboard_bytes_length by by apply typed_sized. lia.
Qed.

(** C10. No validation on load.  Whatever a file with the whole record
    holds becomes the leaderboard, and the count in memory is the count the
    file encodes.  A file that starts with the bytes of any record of the
    right types is loaded as that record, whether or not its count is
    within the capacity and whether or not its entries are in order;
    nothing behind the read looks at them.  So the record [overfull], from a
    file, leaves a count above [MAX_LEADERBOARD_SCORES], and the record
    [misordered] leaves a live slice within the capacity that is not
    sorted. *)
Theorem LoadLeaderboard_unvalidated (fs : FileSystem) (lb : NetworkLeaderboard)
    (filename : string) :
  (forall bytes,
     files fs !! filename = Some bytes ->
     (LEADERBOARD_SIZE <= length bytes)%nat ->
     LoadLeaderboard fs lb filename = leaderboard_of_bytes bytes /\
     scoreCount (LoadLeaderboard fs lb filename) = bytes_u32 bytes) /\
  (forall lb' extra,
     typed lb' ->
     files fs !! filename = Some (leaderboard_bytes lb' ++ extra) ->
     LoadLeaderboard fs lb filename = lb') /\
  ((MAX_LEADERBOARD_SCORES + 1 < UINT32_MOD)%N ->
   files fs !! filename = Some (leaderboard_bytes overfull) ->
     (MAX_LEADERBOARD_SCORES < scoreCount (LoadLeaderboard fs lb filename))%N) /\
  ((2 <= MAX_LEADERBOARD_SCORES)%N ->
   files fs !! filename = Some (leaderboard_bytes misordered) ->
     (scoreCount (LoadLeaderboard fs lb filename) <= MAX_LEADERBOARD_SCORES)%N /\
     ~ sorted_live (LoadLeaderboard fs lb filename)).
Proof.
  split; [|split; [|split]].
  - intros bytes Hfile Hlen.
    by rewrite (LoadLeaderboard_whole _ _ _ _ Hfile Hlen).
  - intros lb' extra Htyped Hfile.
    by apply (LoadLeaderboard_record fs lb filename lb' extra).
  - intros Hmax Hfile.
    rewrite (LoadLeaderboard_record fs lb filename overfull []).
    + simpl. lia.
    + by apply overfull_typed.
    + by rewrite app_nil_r.
  - intros Hmin Hfile.
    rewrite (LoadLeaderboard_record fs lb filename misordered []).
    + split; [simpl; lia|apply misordered_not_sorted].
    + by apply misordered_typed.
    + by rewrite app_nil_r.
Qed.

End PersistenceProofs.

(** * Concrete instances: evaluations, witnesses and counterexamples *)

Section InstanceProofs.
Import GameState Leaderboard Instances.

Example AddScoreToLeaderboard_example_admitted :
  @AddScoreToLeaderboard small_header board_full 7 (text "X") 60 (text "t04")
    = Ok (true, board_admitted).
Proof. vm_compute. reflexivity. Qed.

Example AddScoreToLeaderboard_example_rejected :
  @AddScoreToLeaderboard small_header board_full 8 (text "Y") 10 (text "t05")
    = Ok (false, board_full).
Proof. vm_compute. reflexivity. Qed.

Example AddScoreToLeaderboard_example_truncated :
  exists lb',
    @AddScoreToLeaderboard small_header board_two 5 (text "Alexander") 90
        (text "2024-01-01") = Ok (true, lb') /\
    (name <$> scores lb' !! 1%nat) = Some (text "Ale" ++ [NUL]) /\
    (timestamp <$> scores lb' !! 1%nat) = Some (text "202" ++ [NUL]).
Proof. eexists. vm_compute. repeat split. Qed.

Example AddScoreToLeaderboard_example_tight :
  @AddScoreToLeaderboard tight_header board_two 5 (text "Alex") 90 (text "t07")
    = InvalidParameter.
Proof. vm_compute. reflexivity. Qed.

Example GetTopPlayersFromLeaderboard_example :
  @GetTopPlayersFromLeaderboard board_full 2
    = Ok (["1) ann: 100 [t01]"; "2) bob: 80 [t02]"]%string, board_full).
Proof. vm_compute. reflexivity. Qed.

Example SetNetworkObject_example_full :
  @SetNetworkObject small_header store_full 3 origin origin origin
    = Ok (false, store_full).
Proof. vm_compute. reflexivity. Qed.

Example leaderboard_bytes_example :
  length (@leaderboard_bytes small_header board_full) = 52%nat /\
  length short_file = 20%nat.
Proof. vm_compute. split; reflexivity. Qed.

Lemma store_full_well_formed : @well_formed small_header store_full.
Proof. repeat split; vm_compute; (reflexivity || discriminate). Qed.

Lemma store_one_well_formed : @well_formed small_header store_one.
Proof. repeat split; vm_compute; (reflexivity || discriminate). Qed.

Lemma board_full_typed : @typed small_header board_full.
Proof. repeat constructor. Qed.

Lemma board_full_sorted : sorted_live board_full.
Proof.
  unfold sorted_live, live. change (N.to_nat (scoreCount board_full)) with 3%nat.
  cbn [firstn scores board_full].
  repeat constructor; unfold score_ge; simpl; lia.
Qed.

(** The upsert on the two-slot store: identifier 2 is overwritten in the
    full store, appended to the store with one object, and identifier 3
    finds the full store exhausted. *)
Lemma SetNetworkObject_upsert_witness :
  (exists k o,
     first_live_match store_full 2 k o /\
     @SetNetworkObject small_header store_full 2 origin (vec 1 2) (vec 3 4) =
       Ok (true,
           set_objects store_full
             (<[N.to_nat k := overwrite o origin (vec 1 2) (vec 3 4)]>
                (objects store_full)))) /\
  @SetNetworkObject small_header store_one 2 (vec 20 21) (vec 22 23) (vec 24 25) =
    Ok (true, store_full) /\
  @SetNetworkObject small_header store_full 3 origin origin origin =
    Ok (false, store_full).
Proof.
  split; [|split].
  - apply (@SetNetworkObject_upsert small_header store_full 2 origin (vec 1 2) (vec 3 4)
             store_full_well_formed).
    exists 1%N, (object 2 (vec 20 21) (vec 22 23) (vec 24 25)).
    repeat split.
  - apply (@SetNetworkObject_upsert small_header store_one 2
             (vec 20 21) (vec 22 23) (vec 24 25) store_one_well_formed).
    + intros k o Hk. replace k with 0%N by (simpl in Hk; lia).
      intros [= <-]. discriminate.
    + reflexivity.
  - apply (@SetNetworkObject_upsert small_header store_full 3 origin origin origin
             store_full_well_formed).
    + intros k o Hk.
      assert (k = 0 \/ k = 1)%N as [-> | ->] by (simpl in Hk; lia);
        intros [= <-]; discriminate.
    + reflexivity.
Defined.

(** The round trip on the store with one object: identifier 2 is appended
    and read back. *)
Lemma SetNetworkObject_GetNetworkObject_witness :
  @GetNetworkObject store_full 2 origin origin origin =
    Ok (true, (vec 20 21, vec 22 23, vec 24 25)).
Proof.
  apply (@SetNetworkObject_GetNetworkObject small_header store_one store_full 2
           (vec 20 21) (vec 22 23) (vec 24 25) origin origin origin).
  - reflexivity.
  - vm_compute. reflexivity.
Defined.

(** The example of the specification: on the full table 100, 80, 50 a score
    of 10 is turned down and a score of 60 takes the place of the 50. *)
Lemma AddScoreToLeaderboard_full_witness :
  @AddScoreToLeaderboard small_header board_full 8 (text "Y") 10 (text "t05") =
    Ok (false, board_full) /\
  exists entry' lb',
    @AddScoreToLeaderboard small_header board_full 7 (text "X") 60 (text "t04") =
      Ok (true, lb') /\
    score entry' = 60%N /\
    scores lb' ≡ₚ take 2 (scores board_full) ++ [entry'] /\
    sorted_live lb'.
Proof.
  split.
  - destruct (@AddScoreToLeaderboard_full small_header board_full 8 (text "Y") 10
                (text "t05") eq_refl eq_refl eq_refl) as (lowest & Hlast & Hrej & _).
    apply Hrej. vm_compute in Hlast. injection Hlast as <-. vm_compute. discriminate.
  - destruct (@AddScoreToLeaderboard_full small_header board_full 7 (text "X") 60
                (text "t04") eq_refl eq_refl eq_refl) as (lowest & Hlast & _ & Hadm).
    destruct Hadm as (entry' & lb' & Hadd & _ & _ & Hsc & _ & _ & _ & _ & Hperm & Hsorted).
    + vm_compute in Hlast. injection Hlast as <-. reflexivity.
    + unfold fits. vm_compute. lia.
    + unfold fits. vm_compute. lia.
    + exists entry', lb'. repeat split; assumption.
Defined.

(** An admission on the full table returns, so its result is sorted. *)
Lemma AddScoreToLeaderboard_sorted_witness :
  (true = true -> sorted_live board_admitted) /\
  (sorted_live board_full -> sorted_live board_admitted).
Proof.
  apply (@AddScoreToLeaderboard_sorted small_header board_full board_admitted 7
           (text "X") 60 (text "t04") true).
  vm_compute. reflexivity.
Defined.

(** The first two lines of the full table. *)
Lemma GetTopPlayersFromLeaderboard_lines_witness :
  exists topScores,
    GetTopPlayersFromLeaderboard board_full 2 = Ok (topScores, board_full) /\
    length topScores = 2%nat /\
    forall x, (x < length topScores)%nat ->
      exists e, scores board_full !! x = Some e /\
        topScores !! x = Some (rendered (N.of_nat x + 1) e).
Proof.
  apply (GetTopPlayersFromLeaderboard_lines board_full 2).
  - reflexivity.
  - vm_compute. lia.
  - change (live board_full) with (scores board_full).
    repeat constructor; unfold terminated; vm_compute; set_solver.
Defined.

(** The full table comes back from the file it was saved to, here over the
    table that was in memory after the count had dropped to two. *)
Lemma SaveLeaderboard_LoadLeaderboard_witness :
  @LoadLeaderboard small_header
    (@SaveLeaderboard small_header (host "scores.dat" []) board_full "scores.dat")
    board_two "scores.dat" = board_full.
Proof.
  apply (@SaveLeaderboard_LoadLeaderboard small_header).
  - apply board_full_typed.
  - reflexivity.
Defined.

(** Against C2 as stated: [board_full] is sorted; a load from a file that
    holds the same entries in another order is a mutation, and it leaves a
    live slice that is not sorted. *)
Lemma sorted_is_invariant_counterexample :
  sorted_live board_full /\
  @mutate small_header
    (MLoad (host "scores.dat" (@leaderboard_bytes small_header board_shuffled))
       "scores.dat") board_full = Ok board_shuffled /\
  ~ sorted_live board_shuffled /\
  ~ @sorted_is_invariant small_header.
Proof.
  assert (@mutate small_header
            (MLoad (host "scores.dat" (@leaderboard_bytes small_header board_shuffled))
               "scores.dat") board_full = Ok board_shuffled) as Hload.
  { unfold mutate. apply (f_equal Ok).
    apply (@LoadLeaderboard_record small_header _ _ _ _ []).
    - repeat constructor.
    - rewrite app_nil_r. apply lookup_singleton_eq. }
  assert (~ sorted_live board_shuffled) as Hnot.
  { unfold sorted_live, live.
    change (N.to_nat (scoreCount board_shuffled)) with 3%nat.
    cbn [firstn scores board_shuffled]. intros Hs.
    apply Sorted_inv in Hs as [_ Hhd]. apply HdRel_inv in Hhd.
    unfold score_ge in Hhd. simpl in Hhd. lia. }
  split; [apply board_full_sorted|]. split; [exact Hload|]. split; [exact Hnot|].
  intros Hinv. apply Hnot. eapply Hinv; [apply board_full_sorted|exact Hload].
Qed.

(** Against C5 as stated: a file cut off behind its first entry is read
    over [board_full].  The count and the first entry come from the file,
    the second and third entries are the old ones: the leaderboard is
    neither the one it was nor the one a whole record holds. *)
Lemma load_is_atomic_counterexample :
  @LoadLeaderboard small_header (host "scores.dat" short_file) board_full
    "scores.dat" = board_mixed /\
  board_mixed <> board_full /\
  ~ @load_is_atomic small_header (host "scores.dat" short_file) board_full
      "scores.dat".
Proof.
  assert (files (host "scores.dat" short_file) !! "scores.dat" = Some short_file)
    as Hfile by apply lookup_singleton_eq.
  assert (@LoadLeaderboard small_header (host "scores.dat" short_file) board_full
            "scores.dat" = board_mixed) as Hload.
  { unfold LoadLeaderboard. rewrite Hfile. vm_compute. reflexivity. }
  split; [exact Hload|]. split; [discriminate|].
  intros [Heq | (bytes & Hbytes & Hlen & _)].
  - rewrite Hload in Heq. discriminate.
  - rewrite Hfile in Hbytes. injection Hbytes as <-.
    vm_compute in Hlen. lia.
Qed.

End InstanceProofs.

(** * The game-state store: lookups, other identifiers, invariants *)

Section FindProofs.
Import GameState.
Context {A : Type} (key : A -> N).

Lemma find_by_first (l : list A) (k : nat) (a : A) (id : N) :
  l !! k = Some a -> key a = id ->
  (forall j a', (j < k)%nat -> l !! j = Some a' -> key a' <> id) ->
  find_by key l id = Some a.
Proof.
  revert k. induction l as [|b l IH]; intros k Hk Ha Hfirst; [done|].
  destruct k as [|k]; simpl in *.
  - injection Hk as ->. by rewrite (proj2 (N.eqb_eq _ _) Ha).
  - rewrite (proj2 (N.eqb_neq _ _) (Hfirst 0%nat b ltac:(lia) eq_refl)).
    apply (IH k); auto. intros j a' Hj. apply (Hfirst (S j)). lia.
Qed.

Lemma find_by_None (l : list A) (id : N) :
  find_by key l id = None <-> id ∉ key <$> l.
Proof.
  induction l as [|b l IH]; simpl; [split; [intros _; apply not_elem_of_nil|done]|].
  rewrite not_elem_of_cons. destruct (key b =? id)%N eqn:Hb.
  - apply N.eqb_eq in Hb. split; [done|]. intros [Hne _]. by destruct Hne.
  - apply N.eqb_neq in Hb. rewrite IH.
    split; [intros Hn; split; [congruence|done]|by intros [_ Hn]].
Qed.

Lemma find_by_Some (l : list A) (id : N) (a : A) :
  find_by key l id = Some a -> key a = id /\ a ∈ l.
Proof.
  induction l as [|b l IH]; simpl; [done|].
  destruct (key b =? id)%N eqn:Hb.
  - intros [= <-]. apply N.eqb_eq in Hb. split; [done|]. by left.
  - intros Hf. destruct (IH Hf). split; [done|]. by right.
Qed.

(** Replacing an element that does not carry [id] by another that does not
    carry it is not seen by a search for [id]. *)
Lemma find_by_insert_other (l : list A) (k : nat) (a a' : A) (id : N) :
  l !! k = Some a -> key a <> id -> key a' <> id ->
  find_by key (<[k := a']> l) id = find_by key l id.
Proof.
  revert k. induction l as [|b l IH]; intros k Hk Ha Ha'; [done|].
  destruct k as [|k]; simpl in *.
  - injection Hk as ->.
    by rewrite (proj2 (N.eqb_neq _ _) Ha), (proj2 (N.eqb_neq _ _) Ha').
  - destruct (key b =? id)%N; [done|]. by apply IH.
Qed.

Lemma find_by_snoc_other (l : list A) (a' : A) (id : N) :
  key a' <> id -> find_by key (l ++ [a']) id = find_by key l id.
Proof.
  intros Ha'. induction l as [|b l IH]; simpl.
  - by rewrite (proj2 (N.eqb_neq _ _) Ha').
  - by destruct (key b =? id)%N.
Qed.

End FindProofs.

Section GameStateExtras.
Import GameState.
Context `{Header}.

(** The scan of [GetNetworkObject] is a search for the first match in the
    slots it visits. *)
Lemma GetNetworkObject_loop_find s id n (x : N) :
  (N.to_nat x + n <= length (objects s))%nat ->
  (x + N.of_nat n < UINT32_MOD)%N ->
  GetNetworkObject_loop s id n x =
    Ok (transform <$> find_by identifier (take n (drop (N.to_nat x) (objects s))) id).
Proof.
  revert x. induction n as [|n IH]; intros x Hlen Hx; [done|].
  destruct (lookup_lt_is_Some_2 (objects s) (N.to_nat x) ltac:(lia)) as [o Ho].
  cbn [GetNetworkObject_loop]. rewrite Ho, (drop_S _ _ _ Ho). cbn [take find_by].
  destruct (identifier o =? id)%N; [done|].
  rewrite wrap32_small by lia. rewrite IH by lia.
  by replace (N.to_nat (x + 1)) with (S (N.to_nat x)) by lia.
Qed.

Lemma GetNetworkObject_find s id pos vel scl :
  well_formed s ->
  GetNetworkObject s id pos vel scl =
    Ok (match find_by identifier (live_objects s) id with
        | Some o => (true, (position (transform o), velocity (transform o),
                            scale (transform o)))
        | None => (false, (pos, vel, scl))
        end).
Proof.
  intros (Hlen & Hcount & Hmax). unfold GetNetworkObject.
  rewrite GetNetworkObject_loop_find by lia.
  change (N.to_nat 0) with 0%nat. rewrite drop_0. fold (live_objects s).
  by destruct (find_by identifier (live_objects s) id).
Qed.

Lemma no_live_match_find s id :
  no_live_match s id <-> find_by identifier (live_objects s) id = None.
Proof.
  rewrite find_by_None. unfold live_objects. split.
  - intros Hnone Hin. apply list_elem_of_fmap in Hin as (o & -> & Hin).
    apply list_elem_of_lookup in Hin as [j Hj].
    apply lookup_take_Some in Hj as [Hj Hlt].
    apply (Hnone (N.of_nat j) o); [lia| by rewrite Nat2N.id |done].
  - intros Hnot k o Hk Ho Hid. apply Hnot. rewrite <- Hid.
    apply list_elem_of_fmap. exists o. split; [done|].
    apply list_elem_of_lookup. exists (N.to_nat k).
    rewrite lookup_take_lt by lia. done.
Qed.

Lemma first_live_match_find s id k o :
  first_live_match s id k o -> find_by identifier (live_objects s) id = Some o.
Proof.
  intros ((Hk & Ho & Hid) & Hfirst).
  apply (find_by_first identifier _ (N.to_nat k)); [|done|].
  - unfold live_objects. rewrite lookup_take_lt by lia. done.
  - intros j o' Hj Ho'. unfold live_objects in Ho'.
    apply lookup_take_Some in Ho' as [Ho' _].
    apply (Hfirst (N.of_nat j)); [lia|by rewrite Nat2N.id].
Qed.

(** What a [SetNetworkObject] that returns did to the live slice. *)
Lemma SetNetworkObject_live s id pos vel scl r s' :
  well_formed s ->
  SetNetworkObject s id pos vel scl = Ok (r, s') ->
  well_formed s' /\
  playerData s' = playerData s /\ playerCount s' = playerCount s /\
  ((r = false /\ s' = s /\ objectCount s = MAX_NETWORK_OBJECTS /\
    find_by identifier (live_objects s) id = None)
   \/ (r = true /\ objectCount s' = objectCount s /\
       exists k o, live_objects s !! k = Some o /\ identifier o = id /\
         live_objects s' = <[k := overwrite o pos vel scl]> (live_objects s))
   \/ (r = true /\ objectCount s' = (objectCount s + 1)%N /\
       find_by identifier (live_objects s) id = None /\
       live_objects s' = live_objects s ++ [new_object id pos vel scl])).
Proof.
  intros Hwf Hset. pose proof Hwf as (Hlen & Hcount & Hmax).
  assert (forall j o, (j < 0)%N -> objects s !! N.to_nat j = Some o ->
            identifier o <> id) as Hbefore by (intros; lia).
  unfold SetNetworkObject in Hset.
  destruct (SetNetworkObject_loop_spec s id pos vel scl
              (N.to_nat (objectCount s)) 0%N ltac:(lia) ltac:(lia) ltac:(lia) Hbefore)
    as [[Hloop Hnone]|(k & o & Hfirst & Hloop)]; rewrite Hloop in Hset; simpl in Hset.
  - apply no_live_match_find in Hnone.
    destruct (objectCount s <? MAX_NETWORK_OBJECTS)%N eqn:Hlt.
    + apply N.ltb_lt in Hlt.
      destruct (objects s !! N.to_nat (objectCount s)) as [o|] eqn:Ho; [|done].
      injection Hset as <- <-. rewrite wrap32_small by lia.
      split; [|split; [done|split; [done|]]].
      * repeat split; simpl; [by rewrite length_insert|lia|done].
      * right. right. do 3 (split; [done|]).
        unfold live_objects. simpl.
        replace (N.to_nat (objectCount s + 1)) with (S (N.to_nat (objectCount s)))
          by lia.
        erewrite take_S_r by (apply list_lookup_insert_eq; lia).
        by rewrite take_insert_ge by lia.
    + apply N.ltb_ge in Hlt. injection Hset as <- <-.
      split; [done|]. do 2 (split; [done|]). left. repeat split; [lia|done].
  - injection Hset as <- <-. pose proof Hfirst as ((Hk & Ho & Hid) & _).
    split; [|split; [done|split; [done|]]].
    + repeat split; simpl; [by rewrite length_insert|done|done].
    + right. left. do 2 (split; [done|]). exists (N.to_nat k), o.
      unfold live_objects. simpl.
      rewrite lookup_take_lt by lia. do 2 (split; [done|]).
      by rewrite take_insert_lt by lia.
Qed.

(** On a well-formed store [SetNetworkObject] returns. *)
Lemma SetNetworkObject_returns s id pos vel scl :
  well_formed s -> exists r s', SetNetworkObject s id pos vel scl = Ok (r, s').
Proof.
  intros (Hlen & Hcount & Hmax).
  assert (forall j o, (j < 0)%N -> objects s !! N.to_nat j = Some o ->
            identifier o <> id) as Hbefore by (intros; lia).
  unfold SetNetworkObject.
  destruct (SetNetworkObject_loop_spec s id pos vel scl
              (N.to_nat (objectCount s)) 0%N ltac:(lia) ltac:(lia) ltac:(lia) Hbefore)
    as [[-> _]|(k & o & _ & ->)]; simpl; [|by eauto].
  destruct (objectCount s <? MAX_NETWORK_OBJECTS)%N eqn:Hlt; [|by eauto].
  apply N.ltb_lt in Hlt.
  destruct (lookup_lt_is_Some_2 (objects s) (N.to_nat (objectCount s)) ltac:(lia))
    as [o ->].
  by eauto.
Qed.

Lemma overwrite_identifiers (l : list NetworkObject) k o pos vel scl :
  l !! k = Some o ->
  identifier <$> <[k := overwrite o pos vel scl]> l = identifier <$> l.
Proof.
  intros Hk. rewrite list_fmap_insert. apply list_insert_id.
  by rewrite list_lookup_fmap, Hk.
Qed.

(** What a [SetNetworkObject] that returns did to the live identifiers. *)
Lemma SetNetworkObject_identifiers s id pos vel scl r s' :
  well_formed s ->
  SetNetworkObject s id pos vel scl = Ok (r, s') ->
  (r = false /\ s' = s /\ objectCount s = MAX_NETWORK_OBJECTS /\
     id ∉ live_identifiers s)
  \/ (r = true /\ id ∈ live_identifiers s /\
      live_identifiers s' = live_identifiers s /\ objectCount s' = objectCount s)
  \/ (r = true /\ (id ∉ live_identifiers s) /\
      live_objects s' = live_objects s ++ [new_object id pos vel scl] /\
      objectCount s' = (objectCount s + 1)%N).
Proof.
  intros Hwf Hset.
  destruct (SetNetworkObject_live _ _ _ _ _ _ _ Hwf Hset)
    as (_ & _ & _ & [(-> & -> & Hfull & Hnone)
                     |[(-> & Hc & k & o & Hk & Hid & Hlive)
                      |(-> & Hc & Hnone & Hlive)]]).
  - left. by rewrite find_by_None in Hnone.
  - right. left. split; [done|]. unfold live_identifiers. split; [|split; [|done]].
    + rewrite <- Hid. apply list_elem_of_fmap. exists o. split; [done|].
      by eapply list_elem_of_lookup_2.
    + by rewrite Hlive, overwrite_identifiers.
  - right. right. by rewrite find_by_None in Hnone.
Qed.

Lemma find_by_NoDup {A} (key : A -> N) (l : list A) (a : A) :
  NoDup (key <$> l) -> a ∈ l -> find_by key l (key a) = Some a.
Proof.
  induction l as [|b l IH]; intros Hnd Hin; [by apply elem_of_nil in Hin|].
  rewrite fmap_cons in Hnd. apply NoDup_cons in Hnd as [Hb Hnd]. simpl.
  apply elem_of_cons in Hin as [->|Hin]; [by rewrite N.eqb_refl|].
  destruct (key b =? key a)%N eqn:Hba; [|by apply IH].
  apply N.eqb_eq in Hba. destruct Hb. rewrite Hba.
  apply list_elem_of_fmap. by exists a.
Qed.

(** X1. Lookup.  On a well-formed store [GetNetworkObject] returns [false]
    and the caller's three values when no live slot carries the identifier,
    and [true] with the transform of the first live slot that carries it
    otherwise. *)
Theorem GetNetworkObject_lookup (s : NetworkGameState) (id : N)
    (pos vel scl : AEVec2) :
  well_formed s ->
  (no_live_match s id ->
     GetNetworkObject s id pos vel scl = Ok (false, (pos, vel, scl))) /\
  (forall k o, first_live_match s id k o ->
     GetNetworkObject s id pos vel scl =
       Ok (true, (position (transform o), velocity (transform o),
                  scale (transform o)))).
Proof.
  intros Hwf. rewrite (GetNetworkObject_find _ _ _ _ _ Hwf). split.
  - intros Hnone. apply no_live_match_find in Hnone. by rewrite Hnone.
  - intros k o Hfirst. by rewrite (first_live_match_find _ _ _ _ Hfirst).
Qed.

(** X2. Other identifiers.  A [SetNetworkObject] for one identifier,
    whatever it returns, changes nothing of what [GetNetworkObject] returns
    for another identifier. *)
Theorem SetNetworkObject_other_identifier (s s' : NetworkGameState) (id id' : N)
    (pos vel scl pos0 vel0 scl0 : AEVec2) (r : bool) :
  well_formed s ->
  SetNetworkObject s id pos vel scl = Ok (r, s') ->
  id' <> id ->
  GetNetworkObject s' id' pos0 vel0 scl0 = GetNetworkObject s id' pos0 vel0 scl0.
Proof.
  intros Hwf Hset Hne.
  destruct (SetNetworkObject_live _ _ _ _ _ _ _ Hwf Hset)
    as (Hwf' & _ & _ & [(_ & -> & _)
                        |[(_ & _ & k & o & Hk & Hid & Hlive)|(_ & _ & _ & Hlive)]]);
    [done| |];
    rewrite (GetNetworkObject_find _ _ _ _ _ Hwf),
      (GetNetworkObject_find _ _ _ _ _ Hwf'), Hlive.
  - rewrite (find_by_insert_other identifier _ k o); [done|done|congruence|].
    simpl. congruence.
  - rewrite find_by_snoc_other; [done|]. simpl. congruence.
Qed.

(** X3. Invariants of the object table.  On a well-formed store whose live
    identifiers are pairwise distinct, [SetNetworkObject] returns, and the
    store it leaves is well-formed with pairwise distinct live identifiers;
    no live identifier is lost, the identifier of a call that returned
    [true] is live, and the player records are not touched. *)
Theorem SetNetworkObject_invariant (s : NetworkGameState) (id : N)
    (pos vel scl : AEVec2) :
  well_formed s ->
  NoDup (live_identifiers s) ->
  exists r s',
    SetNetworkObject s id pos vel scl = Ok (r, s') /\
    well_formed s' /\
    NoDup (live_identifiers s') /\
    (forall id', id' ∈ live_identifiers s -> id' ∈ live_identifiers s') /\
    (r = true -> id ∈ live_identifiers s') /\
    playerData s' = playerData s /\ playerCount s' = playerCount s.
Proof.
  intros Hwf Hnd.
  destruct (SetNetworkObject_returns s id pos vel scl Hwf) as (r & s' & Hset).
  exists r, s'. split; [done|].
  destruct (SetNetworkObject_live _ _ _ _ _ _ _ Hwf Hset) as (Hwf' & Hpd & Hpc & _).
  split; [done|].
  destruct (SetNetworkObject_identifiers _ _ _ _ _ _ _ Hwf Hset)
    as [(-> & -> & _)|[(-> & Hin & Hids & _)|(-> & Hnot & Hlive & _)]].
  - do 2 (split; [done|]). split; [discriminate|done].
  - rewrite Hids. do 2 (split; [done|]). split; [done|]. done.
  - unfold live_identifiers in *. rewrite Hlive, fmap_app. simpl.
    split; [|split; [|split; [|done]]].
    + apply NoDup_app. split; [done|]. split; [|apply NoDup_singleton].
      intros id' Hin' Hin''. apply list_elem_of_singleton in Hin''. by subst.
    + intros id' Hin'. apply elem_of_app. by left.
    + intros _. apply elem_of_app. right. by apply list_elem_of_singleton.
Qed.

(** A run of calls with identifiers that are new and pairwise distinct,
    within the free capacity: every one is appended. *)
Lemma SetNetworkObjects_append s calls :
  well_formed s ->
  NoDup (live_identifiers s ++ (calls.*1)) ->
  (N.to_nat (objectCount s) + length calls <= N.to_nat MAX_NETWORK_OBJECTS)%nat ->
  exists s',
    SetNetworkObjects s calls = Ok (replicate (length calls) true, s') /\
    well_formed s' /\
    live_objects s' =
      live_objects s ++
        ((fun c => {| identifier := fst c; transform := snd c |}) <$> calls) /\
    objectCount s' = (objectCount s + N.of_nat (length calls))%N.
Proof.
  revert s. induction calls as [|[id t] calls IH]; intros s Hwf Hnd Hroom.
  - exists s. simpl. rewrite app_nil_r, N.add_0_r. done.
  - simpl in Hnd, Hroom.
    assert (id ∉ live_identifiers s) as Hnew.
    { apply NoDup_app in Hnd as (_ & Hdisj & _). intros Hin.
      apply (Hdisj _ Hin). by left. }
    destruct (SetNetworkObject_returns s id (position t) (velocity t) (scale t) Hwf)
      as (r & s1 & Hset).
    destruct (SetNetworkObject_live _ _ _ _ _ _ _ Hwf Hset) as (Hwf1 & _).
    destruct (SetNetworkObject_identifiers _ _ _ _ _ _ _ Hwf Hset)
      as [(_ & _ & Hfull & _)|[(_ & Hin & _)|(-> & _ & Hlive & Hc)]];
      [lia|done|].
    assert (new_object id (position t) (velocity t) (scale t) =
            {| identifier := id; transform := t |}) as Hobj by (by destruct t).
    rewrite Hobj in Hlive.
    destruct (IH s1 Hwf1) as (s' & Hrun & Hwf' & Hlive' & Hc').
    { unfold live_identifiers. rewrite Hlive, fmap_app. simpl.
      by rewrite <- app_assoc. }
    { lia. }
    exists s'. cbn [SetNetworkObjects]. rewrite Hset. simpl. rewrite Hrun. simpl.
    split; [done|]. split; [done|]. split.
    + rewrite Hlive', Hlive, <- app_assoc. done.
    + lia.
Qed.

(** X4. Filling the table.  From a well-formed store with no live object, a
    run of [SetNetworkObject] calls with pairwise distinct identifiers, as
    many as the capacity at most, is accepted call by call; the count is
    then the number of calls, every identifier of the run reads back the
    transform of its call, and once the run has filled the table a call
    with a further identifier returns [false] and changes nothing. *)
Theorem SetNetworkObjects_distinct (s : NetworkGameState)
    (calls : list (N * NetworkTransform)) :
  well_formed s ->
  objectCount s = 0%N ->
  NoDup (calls.*1) ->
  (length calls <= N.to_nat MAX_NETWORK_OBJECTS)%nat ->
  exists s',
    SetNetworkObjects s calls = Ok (replicate (length calls) true, s') /\
    objectCount s' = N.of_nat (length calls) /\
    (forall id t pos vel scl, (id, t) ∈ calls ->
       GetNetworkObject s' id pos vel scl =
         Ok (true, (position t, velocity t, scale t))) /\
    (length calls = N.to_nat MAX_NETWORK_OBJECTS ->
     forall id pos vel scl, id ∉ (calls.*1) ->
       SetNetworkObject s' id pos vel scl = Ok (false, s')).
Proof.
  intros Hwf Hzero Hnd Hroom.
  assert (live_objects s = []) as Hlive0.
  { unfold live_objects. rewrite Hzero. done. }
  destruct (SetNetworkObjects_append s calls Hwf) as (s' & Hrun & Hwf' & Hlive & Hc).
  { unfold live_identifiers. rewrite Hlive0. done. }
  { rewrite Hzero. simpl. lia. }
  rewrite Hlive0 in Hlive. simpl in Hlive.
  assert (live_identifiers s' = (calls.*1)) as Hids.
  { unfold live_identifiers. rewrite Hlive, <- list_fmap_compose. done. }
  exists s'. split; [done|]. split; [lia|]. split.
  - intros id t pos vel scl Hin.
    rewrite (GetNetworkObject_find _ _ _ _ _ Hwf'), Hlive.
    rewrite (find_by_NoDup identifier _ {| identifier := id; transform := t |}).
    + done.
    + by rewrite <- list_fmap_compose.
    + apply list_elem_of_fmap. by exists (id, t).
  - intros Hfull id pos vel scl Hnew.
    destruct (SetNetworkObject_returns s' id pos vel scl Hwf') as (r & s2 & Hset).
    destruct (SetNetworkObject_identifiers _ _ _ _ _ _ _ Hwf' Hset)
      as [(-> & -> & _)|[(_ & Hin & _)|(_ & _ & _ & Hc2)]]; [done| |].
    + by rewrite Hids in Hin.
    + destruct (SetNetworkObject_live _ _ _ _ _ _ _ Hwf' Hset) as ((_ & Hle & _) & _).
      destruct Hwf' as (_ & _ & Hmax). lia.
Qed.

End GameStateExtras.

(** * The game-state store: the player records *)

Section PlayerProofs.
Import GameState.
Context `{PlayerHeader}.

Lemma find_by_insert_first {A} (key : A -> N) (l : list A) (k : nat) (a a' : A) id :
  l !! k = Some a -> key a' = id ->
  (forall j b, (j < k)%nat -> l !! j = Some b -> key b <> id) ->
  find_by key (<[k := a']> l) id = Some a'.
Proof.
  intros Hk Ha' Hfirst.
  apply (find_by_first key _ k); [|done|].
  - apply list_lookup_insert_eq. by eapply lookup_lt_Some.
  - intros j b Hj Hb. rewrite list_lookup_insert_ne in Hb by lia. by eapply Hfirst.
Qed.

Lemma find_by_snoc_new {A} (key : A -> N) (l : list A) (a : A) id :
  find_by key l id = None -> key a = id -> find_by key (l ++ [a]) id = Some a.
Proof.
  intros Hnone Ha. induction l as [|b l IH]; simpl in *.
  - by rewrite (proj2 (N.eqb_eq _ _) Ha).
  - destruct (key b =? id)%N; [done|]. by apply IH.
Qed.

(** The scan of [GetNetworkPlayerData] is a search for the first match in
    the slots it visits. *)
Lemma GetNetworkPlayerData_loop_find s id n (x : N) :
  (N.to_nat x + n <= length (playerData s))%nat ->
  (x + N.of_nat n < UINT32_MOD)%N ->
  GetNetworkPlayerData_loop s id n x =
    Ok (find_by player_identifier (take n (drop (N.to_nat x) (playerData s))) id).
Proof.
  revert x. induction n as [|n IH]; intros x Hlen Hx; [done|].
  destruct (lookup_lt_is_Some_2 (playerData s) (N.to_nat x) ltac:(lia)) as [p Hp].
  cbn [GetNetworkPlayerData_loop]. rewrite Hp, (drop_S _ _ _ Hp). cbn [take find_by].
  destruct (player_identifier p =? id)%N; [done|].
  rewrite wrap32_small by lia. rewrite IH by lia.
  by replace (N.to_nat (x + 1)) with (S (N.to_nat x)) by lia.
Qed.

Lemma GetNetworkPlayerData_find s id sc lv :
  players_well_formed s ->
  GetNetworkPlayerData s id sc lv =
    Ok (match find_by player_identifier (live_players s) id with
        | Some p => (true, (player_score p, player_lives p))
        | None => (false, (sc, lv))
        end).
Proof.
  intros (Hlen & Hcount & Hmax). unfold GetNetworkPlayerData.
  rewrite GetNetworkPlayerData_loop_find by lia.
  change (N.to_nat 0) with 0%nat. rewrite drop_0. fold (live_players s).
  by destruct (find_by player_identifier (live_players s) id).
Qed.

(** The scan of [SetNetworkPlayerData] overwrites the first match in the
    slots it visits, or runs out. *)
Lemma SetNetworkPlayerData_loop_spec s id sc lv n (x : N) :
  (N.to_nat x + n <= length (playerData s))%nat ->
  (x + N.of_nat n < UINT32_MOD)%N ->
  (SetNetworkPlayerData_loop s id sc lv n x = Ok None /\
   forall j p, (j < n)%nat -> playerData s !! (N.to_nat x + j)%nat = Some p ->
     player_identifier p <> id)
  \/ exists j p,
       (j < n)%nat /\ playerData s !! (N.to_nat x + j)%nat = Some p /\
       player_identifier p = id /\
       (forall i q, (i < j)%nat -> playerData s !! (N.to_nat x + i)%nat = Some q ->
          player_identifier q <> id) /\
       SetNetworkPlayerData_loop s id sc lv n x =
         Ok (Some (set_playerData s
               (<[(N.to_nat x + j)%nat := overwrite_player p sc lv]> (playerData s)))).
Proof.
  revert x. induction n as [|n IH]; intros x Hlen Hx.
  - left. split; [done|]. intros; lia.
  - destruct (lookup_lt_is_Some_2 (playerData s) (N.to_nat x) ltac:(lia)) as [p Hp].
    cbn [SetNetworkPlayerData_loop]. rewrite Hp.
    destruct (player_identifier p =? id)%N eqn:Hid.
    + apply N.eqb_eq in Hid. right. exists 0%nat, p.
      rewrite Nat.add_0_r. repeat split; auto; [lia|intros; lia].
    + apply N.eqb_neq in Hid. rewrite wrap32_small by lia.
      destruct (IH (x + 1)%N ltac:(lia) ltac:(lia))
        as [[Hloop Hnone]|(j & q & Hj & Hq & Hqid & Hfirst & Hloop)].
      * left. split; [done|]. intros [|j] p' Hj Hp'.
        -- rewrite Nat.add_0_r, Hp in Hp'. by injection Hp' as <-.
        -- apply (Hnone j); [lia|].
           by replace (N.to_nat (x + 1) + j)%nat with (N.to_nat x + S j)%nat by lia.
      * right. exists (S j), q.
        replace (N.to_nat x + S j)%nat with (N.to_nat (x + 1) + j)%nat by lia.
        split; [lia|]. do 2 (split; [done|]). split; [|done].
        intros [|i] q' Hi Hq'.
        -- rewrite Nat.add_0_r, Hp in Hq'. by injection Hq' as <-.
        -- apply (Hfirst i); [lia|].
           by replace (N.to_nat (x + 1) + i)%nat with (N.to_nat x + S i)%nat by lia.
Qed.

(** What a [SetNetworkPlayerData] that returns did. *)
Lemma SetNetworkPlayerData_live s id sc lv r s' :
  players_well_formed s ->
  SetNetworkPlayerData s id sc lv = Ok (r, s') ->
  players_well_formed s' /\
  ((r = false /\ s' = s /\ playerCount s = MAX_PLAYERS /\
    find_by player_identifier (live_players s) id = None)
   \/ (r = true /\ playerCount s' = playerCount s /\
       exists k p, live_players s !! k = Some p /\ player_identifier p = id /\
         (forall j q, (j < k)%nat -> live_players s !! j = Some q ->
            player_identifier q <> id) /\
         s' = set_playerData s (<[k := overwrite_player p sc lv]> (playerData s)) /\
         live_players s' = <[k := overwrite_player p sc lv]> (live_players s))
   \/ (r = true /\ playerCount s' = (playerCount s + 1)%N /\
       (playerCount s < MAX_PLAYERS)%N /\
       find_by player_identifier (live_players s) id = None /\
       s' = {| objects := objects s; objectCount := objectCount s;
               playerData := <[N.to_nat (playerCount s) := new_player id sc lv]>
                               (playerData s);
               playerCount := (playerCount s + 1)%N |} /\
       live_players s' = live_players s ++ [new_player id sc lv])).
Proof.
  intros Hwf Hset. pose proof Hwf as (Hlen & Hcount & Hmax).
  unfold SetNetworkPlayerData in Hset.
  destruct (SetNetworkPlayerData_loop_spec s id sc lv (N.to_nat (playerCount s)) 0%N
              ltac:(lia) ltac:(lia))
    as [[Hloop Hnone]|(k & p & Hk & Hp & Hid & Hfirst & Hloop)];
    rewrite Hloop in Hset; simpl in Hset.
  - assert (find_by player_identifier (live_players s) id = None) as Hfind.
    { apply find_by_None. intros Hin.
      apply list_elem_of_fmap in Hin as (p & -> & Hin).
      apply list_elem_of_lookup in Hin as [j Hj]. unfold live_players in Hj.
      apply lookup_take_Some in Hj as [Hj Hlt]. by apply (Hnone j p). }
    destruct (playerCount s <? MAX_PLAYERS)%N eqn:Hlt.
    + apply N.ltb_lt in Hlt.
      destruct (playerData s !! N.to_nat (playerCount s)) as [p|] eqn:Hp; [|done].
      injection Hset as <- <-. rewrite wrap32_small by lia. split.
      * repeat split; simpl; [by rewrite length_insert|lia|done].
      * right. right. do 5 (split; [done|]).
        unfold live_players. simpl.
        replace (N.to_nat (playerCount s + 1)) with (S (N.to_nat (playerCount s)))
          by lia.
        erewrite take_S_r by (apply list_lookup_insert_eq; lia).
        by rewrite take_insert_ge by lia.
    + apply N.ltb_ge in Hlt. injection Hset as <- <-.
      split; [done|]. left. repeat split; [lia|done].
  - injection Hset as <- <-. simpl in Hp, Hfirst. split.
    + repeat split; simpl; [by rewrite length_insert|done|done].
    + right. left. do 2 (split; [done|]). exists k, p.
      unfold live_players. simpl.
      rewrite lookup_take_lt by lia. do 2 (split; [done|]). split; [|split; [done|]].
      * intros j q Hj Hq. apply lookup_take_Some in Hq as [Hq _]. by apply (Hfirst j).
      * by rewrite take_insert_lt by lia.
Qed.

Lemma SetNetworkPlayerData_returns s id sc lv :
  players_well_formed s -> exists r s', SetNetworkPlayerData s id sc lv = Ok (r, s').
Proof.
  intros (Hlen & Hcount & Hmax). unfold SetNetworkPlayerData.
  destruct (SetNetworkPlayerData_loop_spec s id sc lv (N.to_nat (playerCount s)) 0%N
              ltac:(lia) ltac:(lia))
    as [[-> _]|(k & p & _ & _ & _ & _ & ->)]; simpl; [|by eauto].
  destruct (playerCount s <? MAX_PLAYERS)%N eqn:Hlt; [|by eauto].
  apply N.ltb_lt in Hlt.
  destruct (lookup_lt_is_Some_2 (playerData s) (N.to_nat (playerCount s)) ltac:(lia))
    as [p ->].
  by eauto.
Qed.

Lemma live_player_identifiers_find s id :
  id ∉ live_player_identifiers s <->
  find_by player_identifier (live_players s) id = None.
Proof. unfold live_player_identifiers. by rewrite find_by_None. Qed.

(** X5. Lookup of a player.  On a well-formed player table
    [GetNetworkPlayerData] returns [false] and the caller's two values when
    no live record carries the identifier, and [true] with the score and
    lives of the first live record that carries it otherwise. *)
Theorem GetNetworkPlayerData_lookup (s : NetworkGameState) (id sc lv : N) :
  players_well_formed s ->
  (id ∉ live_player_identifiers s ->
     GetNetworkPlayerData s id sc lv = Ok (false, (sc, lv))) /\
  (forall p, find_by player_identifier (live_players s) id = Some p ->
     GetNetworkPlayerData s id sc lv = Ok (true, (player_score p, player_lives p))).
Proof.
  intros Hwf. rewrite (GetNetworkPlayerData_find _ _ _ _ Hwf). split.
  - intros Hnone. apply live_player_identifiers_find in Hnone. by rewrite Hnone.
  - intros p Hp. by rewrite Hp.
Qed.

(** X6. [SetNetworkPlayerData] is an upsert.  On a well-formed player
    table: when a live record carries [id], the first such record keeps its
    identifier, gets the new score and lives, and the call returns [true];
    when none does and the count is below [MAX_PLAYERS], the record is
    written behind the live ones, the count grows by one and the call
    returns [true]; when none does and the table is full, the call returns
    [false] and the store is the one it was given. *)
Theorem SetNetworkPlayerData_upsert (s : NetworkGameState) (id sc lv : N) :
  players_well_formed s ->
  (id ∈ live_player_identifiers s ->
     exists k p,
       live_players s !! k = Some p /\ player_identifier p = id /\
       (forall j q, (j < k)%nat -> live_players s !! j = Some q ->
          player_identifier q <> id) /\
       SetNetworkPlayerData s id sc lv =
         Ok (true, set_playerData s
                     (<[k := overwrite_player p sc lv]> (playerData s))))
  /\ (id ∉ live_player_identifiers s -> (playerCount s < MAX_PLAYERS)%N ->
        SetNetworkPlayerData s id sc lv =
          Ok (true,
              {| objects := objects s; objectCount := objectCount s;
                 playerData := <[N.to_nat (playerCount s) := new_player id sc lv]>
                                 (playerData s);
                 playerCount := (playerCount s + 1)%N |}))
  /\ (id ∉ live_player_identifiers s -> playerCount s = MAX_PLAYERS ->
        SetNetworkPlayerData s id sc lv = Ok (false, s)).
Proof.
  intros Hwf.
  destruct (SetNetworkPlayerData_returns s id sc lv Hwf) as (r & s' & Hset).
  rewrite Hset.
  destruct (SetNetworkPlayerData_live _ _ _ _ _ _ Hwf Hset)
    as (_ & [(-> & -> & Hfull & Hnone)
            |[(-> & _ & k & p & Hk & Hid & Hfirst & -> & _)
             |(-> & _ & Hlt & Hnone & -> & _)]]).
  - apply live_player_identifiers_find in Hnone.
    split; [done|]. split; [|done]. intros _ Hlt. lia.
  - assert (id ∈ live_player_identifiers s) as Hin.
    { rewrite <- Hid. apply list_elem_of_fmap. exists p. split; [done|].
      by eapply list_elem_of_lookup_2. }
    split; [|done]. intros _. by exists k, p.
  - apply live_player_identifiers_find in Hnone.
    split; [done|]. split; [done|]. intros _ Hfull. lia.
Qed.

(** X7. Round trip of a player.  On a well-formed player table a
    [SetNetworkPlayerData] that returned [true] is followed by a
    [GetNetworkPlayerData] of the same identifier that returns [true] with
    the score and lives just written. *)
Theorem SetNetworkPlayerData_GetNetworkPlayerData (s s' : NetworkGameState)
    (id sc lv sc0 lv0 : N) :
  players_well_formed s ->
  SetNetworkPlayerData s id sc lv = Ok (true, s') ->
  GetNetworkPlayerData s' id sc0 lv0 = Ok (true, (sc, lv)).
Proof.
  intros Hwf Hset.
  destruct (SetNetworkPlayerData_live _ _ _ _ _ _ Hwf Hset)
    as (Hwf' & [(Hr & _)
               |[(_ & _ & k & p & Hk & Hid & Hfirst & _ & Hlive)
                |(_ & _ & _ & Hnone & _ & Hlive)]]); [done| |];
    rewrite (GetNetworkPlayerData_find _ _ _ _ Hwf'), Hlive.
  - by rewrite (find_by_insert_first player_identifier _ k p).
  - by rewrite (find_by_snoc_new player_identifier _ _ id Hnone).
Qed.

(** X8. Other players.  A [SetNetworkPlayerData] for one identifier,
    whatever it returns, changes nothing of what [GetNetworkPlayerData]
    returns for another identifier. *)
Theorem SetNetworkPlayerData_other_identifier (s s' : NetworkGameState)
    (id id' sc lv sc0 lv0 : N) (r : bool) :
  players_well_formed s ->
  SetNetworkPlayerData s id sc lv = Ok (r, s') ->
  id' <> id ->
  GetNetworkPlayerData s' id' sc0 lv0 = GetNetworkPlayerData s id' sc0 lv0.
Proof.
  intros Hwf Hset Hne.
  destruct (SetNetworkPlayerData_live _ _ _ _ _ _ Hwf Hset)
    as (Hwf' & [(_ & -> & _)
               |[(_ & _ & k & p & Hk & Hid & _ & _ & Hlive)
                |(_ & _ & _ & _ & _ & Hlive)]]); [done| |];
    rewrite (GetNetworkPlayerData_find _ _ _ _ Hwf),
      (GetNetworkPlayerData_find _ _ _ _ Hwf'), Hlive.
  - rewrite (find_by_insert_other player_identifier _ k p); [done|done|congruence|].
    simpl. congruence.
  - rewrite find_by_snoc_other; [done|]. simpl. congruence.
Qed.

(** X9. Invariants of the player table.  On a well-formed player table
    whose live identifiers are pairwise distinct, [SetNetworkPlayerData]
    returns, and the store it leaves has a well-formed player table with
    pairwise distinct live identifiers; no live identifier is lost, and the
    identifier of a call that returned [true] is live. *)
Theorem SetNetworkPlayerData_invariant (s : NetworkGameState) (id sc lv : N) :
  players_well_formed s ->
  NoDup (live_player_identifiers s) ->
  exists r s',
    SetNetworkPlayerData s id sc lv = Ok (r, s') /\
    players_well_formed s' /\
    NoDup (live_player_identifiers s') /\
    (forall id', id' ∈ live_player_identifiers s -> id' ∈ live_player_identifiers s') /\
    (r = true -> id ∈ live_player_identifiers s').
Proof.
  intros Hwf Hnd.
  destruct (SetNetworkPlayerData_returns s id sc lv Hwf) as (r & s' & Hset).
  exists r, s'. split; [done|].
  destruct (SetNetworkPlayerData_live _ _ _ _ _ _ Hwf Hset)
    as (Hwf' & [(-> & -> & _)
               |[(-> & _ & k & p & Hk & Hid & _ & _ & Hlive)
                |(-> & _ & _ & Hnone & _ & Hlive)]]);
    (split; [done|]).
  - do 2 (split; [done|]). discriminate.
  - assert (live_player_identifiers s' = live_player_identifiers s) as Hids.
    { unfold live_player_identifiers. rewrite Hlive, list_fmap_insert.
      apply list_insert_id. by rewrite list_lookup_fmap, Hk. }
    rewrite Hids. do 2 (split; [done|]). intros _.
    rewrite <- Hid. apply list_elem_of_fmap. exists p. split; [done|].
    by eapply list_elem_of_lookup_2.
  - apply live_player_identifiers_find in Hnone.
    unfold live_player_identifiers in *. rewrite Hlive, fmap_app. simpl.
    split; [|split].
    + apply NoDup_app. split; [done|]. split; [|apply NoDup_singleton].
      intros id' Hin' Hin''. apply list_elem_of_singleton in Hin''. by subst.
    + intros id' Hin'. apply elem_of_app. by left.
    + intros _. apply elem_of_app. right. by apply list_elem_of_singleton.
Qed.

Lemma GetNetworkObject_loop_ext s s' id n x :
  objects s' = objects s ->
  GetNetworkObject_loop s' id n x = GetNetworkObject_loop s id n x.
Proof.
  intros Hobjs. revert x. induction n as [|n IH]; intros x; simpl; [done|].
  rewrite Hobjs. destruct (objects s !! N.to_nat x) as [o|]; [|done].
  by destruct (identifier o =? id)%N.
Qed.

Lemma GetNetworkPlayerData_loop_ext s s' id n x :
  playerData s' = playerData s ->
  GetNetworkPlayerData_loop s' id n x = GetNetworkPlayerData_loop s id n x.
Proof.
  intros Hpd. revert x. induction n as [|n IH]; intros x; simpl; [done|].
  rewrite Hpd. destruct (playerData s !! N.to_nat x) as [p|]; [|done].
  by destruct (player_identifier p =? id)%N.
Qed.

(** X10. Two independent tables.  A [SetNetworkPlayerData] changes nothing
    of what [GetNetworkObject] returns, and a [SetNetworkObject] changes
    nothing of what [GetNetworkPlayerData] returns: identifiers of objects
    and of players do not meet. *)
Theorem objects_and_players_independent `{Header} (s s' : NetworkGameState)
    (id id' : N) (r : bool) :
  (forall sc lv pos vel scl,
     players_well_formed s ->
     SetNetworkPlayerData s id sc lv = Ok (r, s') ->
     GetNetworkObject s' id' pos vel scl = GetNetworkObject s id' pos vel scl) /\
  (forall pos vel scl sc lv,
     well_formed s ->
     SetNetworkObject s id pos vel scl = Ok (r, s') ->
     GetNetworkPlayerData s' id' sc lv = GetNetworkPlayerData s id' sc lv).
Proof.
  split.
  - intros sc lv pos vel scl Hwf Hset.
    assert (objects s' = objects s /\ objectCount s' = objectCount s) as [Hobjs Hc].
    { destruct (SetNetworkPlayerData_live _ _ _ _ _ _ Hwf Hset)
        as (_ & [(_ & -> & _)|[(_ & _ & k & p & _ & _ & _ & -> & _)
                              |(_ & _ & _ & _ & -> & _)]]); done. }
    unfold GetNetworkObject. by rewrite Hc, (GetNetworkObject_loop_ext s s').
  - intros pos vel scl sc lv Hwf Hset.
    destruct (SetNetworkObject_live _ _ _ _ _ _ _ Hwf Hset) as (_ & Hpd & Hc & _).
    unfold GetNetworkPlayerData. by rewrite Hc, (GetNetworkPlayerData_loop_ext s s').
Qed.

End PlayerProofs.

(** * The leaderboard: free slots, the best scores, faults *)

Section LeaderboardExtras.
Import Leaderboard.
Context `{Header}.

Lemma strncpy_s_Ok size dest src count dest' :
  strncpy_s size dest src count = Ok dest' ->
  fits size src count /\
  read_cstring dest' = Ok (take count (cstring src)) /\
  terminated dest'.
Proof.
  intros Hcopy.
  assert (fits size src count) as Hfit.
  { unfold fits. unfold strncpy_s in Hcopy.
    destruct (Nat.min count (length (cstring src)) <? size)%nat eqn:Hlt; [|done].
    by apply Nat.ltb_lt. }
  destruct (strncpy_s_fits size dest src count Hfit) as (d & Hd & Hread & _).
  rewrite Hcopy in Hd. injection Hd as <-. do 2 (split; [done|]).
  unfold strncpy_s in Hcopy. rewrite (proj2 (Nat.ltb_lt _ _) Hfit) in Hcopy.
  injection Hcopy as <-. unfold terminated.
  apply elem_of_app. right. by left.
Qed.

Lemma read_cstring_Ok buf s : read_cstring buf = Ok s -> cstring buf = s.
Proof.
  revert s. induction buf as [|c buf IH]; intros s; cbn [read_cstring cstring];
    [done|].
  destruct (Ascii.eqb c NUL); [by intros [= <-]|].
  destruct (read_cstring buf) as [s'| |]; simpl; try done.
  intros [= <-]. by rewrite (IH s').
Qed.

(** What the four assignments leave when they return. *)
Lemma write_entry_Ok entry id nm sc ts entry' :
  write_entry entry id nm sc ts = Ok entry' ->
  fits NAME_SIZE nm MAX_NAME_LENGTH /\
  fits TIMESTAMP_SIZE ts TIME_FORMAT /\
  identifier entry' = id /\ score entry' = sc /\
  cstring (name entry') = take MAX_NAME_LENGTH (cstring nm) /\
  cstring (timestamp entry') = take TIME_FORMAT (cstring ts) /\
  terminated (name entry') /\ terminated (timestamp entry').
Proof.
  unfold write_entry.
  destruct (strncpy_s NAME_SIZE (name entry) nm MAX_NAME_LENGTH) as [n'| |] eqn:Hn;
    simpl; try done.
  destruct (strncpy_s TIMESTAMP_SIZE (timestamp entry) ts TIME_FORMAT)
    as [t'| |] eqn:Ht; simpl; try done.
  intros [= <-]. simpl.
  destruct (strncpy_s_Ok _ _ _ _ _ Hn) as (Hfn & Hrn & Htn).
  destruct (strncpy_s_Ok _ _ _ _ _ Ht) as (Hft & Hrt & Htt).
  apply read_cstring_Ok in Hrn, Hrt. done.
Qed.

(** In a sorted list the last element has the least score. *)
Lemma sorted_last_least l lowest :
  Sorted score_ge l -> last l = Some lowest ->
  forall e, e ∈ l -> (score lowest <= score e)%N.
Proof.
  induction 1 as [|a l Hl IH Hhd]; intros Hlast e He; [done|].
  destruct l as [|b l].
  - simpl in Hlast. injection Hlast as <-.
    apply list_elem_of_singleton in He as ->. lia.
  - rewrite last_cons_cons in Hlast. specialize (IH Hlast).
    apply elem_of_cons in He as [->|He]; [|by apply IH].
    apply HdRel_inv in Hhd. unfold score_ge in Hhd.
    specialize (IH b ltac:(by left)). lia.
Qed.

(** What an [AddScoreToLeaderboard] that returns did, on a leaderboard whose
    count is within the array. *)
Lemma AddScoreToLeaderboard_inv lb id nm sc ts r lb' :
  length (scores lb) = N.to_nat MAX_LEADERBOARD_SCORES ->
  (scoreCount lb <= MAX_LEADERBOARD_SCORES)%N ->
  (0 < MAX_LEADERBOARD_SCORES < UINT32_MOD)%N ->
  AddScoreToLeaderboard lb id nm sc ts = Ok (r, lb') ->
  length (scores lb') = length (scores lb) /\
  (((scoreCount lb < MAX_LEADERBOARD_SCORES)%N /\ r = true /\
     exists old entry',
       scores lb !! N.to_nat (scoreCount lb) = Some old /\
       write_entry old id nm sc ts = Ok entry' /\
       scoreCount lb' = (scoreCount lb + 1)%N /\
       live lb' = std_sort by_score (live lb ++ [entry']) /\
       drop (S (N.to_nat (scoreCount lb))) (scores lb') =
         drop (S (N.to_nat (scoreCount lb))) (scores lb))
  \/ (scoreCount lb = MAX_LEADERBOARD_SCORES /\
      exists kept lowest,
        live lb = kept ++ [lowest] /\
        ((r = false /\ (sc <= score lowest)%N /\ lb' = lb)
         \/ (r = true /\ (score lowest < sc)%N /\
             exists entry',
               write_entry lowest id nm sc ts = Ok entry' /\
               scoreCount lb' = scoreCount lb /\
               live lb' = std_sort by_score (kept ++ [entry']))))).
Proof.
  intros Hlen Hcount Hmax. unfold AddScoreToLeaderboard.
  destruct (scoreCount lb <? MAX_LEADERBOARD_SCORES)%N eqn:Hlt.
  - apply N.ltb_lt in Hlt.
    destruct (scores lb !! N.to_nat (scoreCount lb)) as [old|] eqn:Hold; [|done].
    destruct (write_entry old id nm sc ts) as [entry'| |] eqn:Hw; simpl; try done.
    rewrite wrap32_small by lia.
    destruct (sort_scores _ _) as [arr| |] eqn:Hs; simpl; try done.
    intros [= <- <-]. simpl.
    destruct (sort_scores_Ok _ _ _ Hs) as (Hin & Htake & Hdrop).
    rewrite length_insert in Hin.
    split.
    { rewrite <- (take_drop (N.to_nat (scoreCount lb + 1)) arr).
      rewrite length_app, Htake, Hdrop, std_sort_length, <- length_app, take_drop.
      by rewrite length_insert. }
    left. do 2 (split; [done|]). exists old, entry'.
    replace (N.to_nat (scoreCount lb + 1)) with (S (N.to_nat (scoreCount lb)))
      in * by lia.
    do 3 (split; [done|]). split.
    + unfold live. simpl.
      replace (N.to_nat (scoreCount lb + 1)) with (S (N.to_nat (scoreCount lb)))
        by lia.
      rewrite Htake.
      erewrite take_S_r by (apply list_lookup_insert_eq; lia).
      by rewrite take_insert_ge by lia.
    + rewrite Hdrop. by rewrite drop_insert_lt by lia.
  - apply N.ltb_ge in Hlt.
    assert (scoreCount lb = MAX_LEADERBOARD_SCORES) as Hfull by lia.
    set (i := N.to_nat (MAX_LEADERBOARD_SCORES - 1)).
    assert (S i = length (scores lb)) as Hi by (unfold i; lia).
    destruct (scores lb !! i) as [lowest|] eqn:Hlow;
      [|apply lookup_ge_None in Hlow; lia].
    assert (live lb = take i (scores lb) ++ [lowest]) as Hlive.
    { unfold live. rewrite take_ge by lia.
      rewrite <- (take_drop_middle _ _ _ Hlow) at 1.
      by rewrite (drop_ge _ (S i)) by lia. }
    destruct (score lowest <? sc)%N eqn:Hsc.
    + apply N.ltb_lt in Hsc.
      destruct (write_entry lowest id nm sc ts) as [entry'| |] eqn:Hw; simpl;
        try done.
      destruct (sort_scores _ _) as [arr| |] eqn:Hs; simpl; try done.
      intros [= <- <-]. simpl.
      destruct (sort_scores_Ok _ _ _ Hs) as (Hin & Htake & Hdrop).
      rewrite length_insert in Hin.
      rewrite (take_ge (<[i:=entry']> (scores lb))) in Htake
        by (rewrite length_insert; lia).
      assert (length arr = length (scores lb)) as Harr.
      { rewrite <- (take_drop (N.to_nat (scoreCount lb)) arr).
        rewrite length_app, Htake, Hdrop, std_sort_length, length_drop,
          !length_insert. lia. }
      split; [done|]. right. split; [done|].
      exists (take i (scores lb)), lowest. split; [done|]. right.
      do 2 (split; [done|]). exists entry'. do 2 (split; [done|]).
      unfold live. simpl. rewrite (take_ge arr) by lia.
      rewrite (take_ge arr) in Htake by lia. rewrite Htake. f_equal.
      rewrite <- (take_drop_middle _ _ _ Hlow) at 1.
      rewrite insert_app_r_alt by (rewrite length_take; lia).
      rewrite length_take, Nat.min_l, Nat.sub_diag by lia. simpl.
      by rewrite (drop_ge _ (S i)) by lia.
    + apply N.ltb_ge in Hsc. intros [= <- <-]. split; [done|].
      right. split; [done|]. exists (take i (scores lb)), lowest.
      split; [done|]. by left.
Qed.

(** On such a leaderboard the call returns when the strings fit. *)
Lemma AddScoreToLeaderboard_returns lb id nm sc ts :
  length (scores lb) = N.to_nat MAX_LEADERBOARD_SCORES ->
  (scoreCount lb <= MAX_LEADERBOARD_SCORES)%N ->
  (0 < MAX_LEADERBOARD_SCORES < UINT32_MOD)%N ->
  fits NAME_SIZE nm MAX_NAME_LENGTH ->
  fits TIMESTAMP_SIZE ts TIME_FORMAT ->
  exists r lb', AddScoreToLeaderboard lb id nm sc ts = Ok (r, lb').
Proof.
  intros Hlen Hcount Hmax Hfn Hft. unfold AddScoreToLeaderboard.
  destruct (scoreCount lb <? MAX_LEADERBOARD_SCORES)%N eqn:Hlt.
  - apply N.ltb_lt in Hlt.
    destruct (lookup_lt_is_Some_2 (scores lb) (N.to_nat (scoreCount lb)) ltac:(lia))
      as [old ->].
    destruct (write_entry_fits old id nm sc ts Hfn Hft) as (entry' & -> & _).
    simpl. rewrite wrap32_small by lia.
    rewrite sort_scores_in_range by (rewrite length_insert; lia).
    simpl. by eauto.
  - apply N.ltb_ge in Hlt.
    destruct (lookup_lt_is_Some_2 (scores lb)
                (N.to_nat (MAX_LEADERBOARD_SCORES - 1)) ltac:(lia)) as [lowest ->].
    destruct (score lowest <? sc)%N; [|by eauto].
    destruct (write_entry_fits lowest id nm sc ts Hfn Hft) as (entry' & -> & _).
    simpl. rewrite sort_scores_in_range by (rewrite length_insert; lia).
    simpl. by eauto.
Qed.

(** X11. A free slot.  On a leaderboard with room, a score is never turned
    down: with strings that [strncpy_s] can store the call returns [true],
    the count grows by one, the live slice is the old one and the new entry
    in non-increasing order of score, the entry holds the identifier, the
    score and the truncated strings, and the slots behind the new live
    slice are not touched. *)
Theorem AddScoreToLeaderboard_free_slot (lb : NetworkLeaderboard) (id : N)
    (nm : list ascii) (sc : N) (ts : list ascii) :
  length (scores lb) = N.to_nat MAX_LEADERBOARD_SCORES ->
  (scoreCount lb < MAX_LEADERBOARD_SCORES < UINT32_MOD)%N ->
  fits NAME_SIZE nm MAX_NAME_LENGTH ->
  fits TIMESTAMP_SIZE ts TIME_FORMAT ->
  exists entry' lb',
    AddScoreToLeaderboard lb id nm sc ts = Ok (true, lb') /\
    identifier entry' = id /\ score entry' = sc /\
    cstring (name entry') = take MAX_NAME_LENGTH (cstring nm) /\
    cstring (timestamp entry') = take TIME_FORMAT (cstring ts) /\
    scoreCount lb' = (scoreCount lb + 1)%N /\
    live lb' ≡ₚ live lb ++ [entry'] /\
    sorted_live lb' /\
    drop (S (N.to_nat (scoreCount lb))) (scores lb') =
      drop (S (N.to_nat (scoreCount lb))) (scores lb).
Proof.
  intros Hlen Hcount Hfn Hft.
  destruct (AddScoreToLeaderboard_returns lb id nm sc ts Hlen ltac:(lia) ltac:(lia)
              Hfn Hft) as (r & lb' & Hadd).
  destruct (AddScoreToLeaderboard_inv _ _ _ _ _ _ _ Hlen ltac:(lia) ltac:(lia) Hadd)
    as (_ & [(_ & -> & old & entry' & _ & Hw & Hc & Hlive & Hdrop)|(Hfull & _)]);
    [|lia].
  destruct (write_entry_Ok _ _ _ _ _ _ Hw) as (_ & _ & Hid & Hsc & Hn & Ht & _).
  exists entry', lb'. do 6 (split; [done|]). split; [|split; [|done]].
  - by rewrite Hlive, std_sort_Permutation.
  - unfold sorted_live. rewrite Hlive. apply std_sort_Sorted.
Qed.

(** What an admission that returns keeps. *)
Lemma AddScoreToLeaderboard_inv_valid lb id nm sc ts r lb' :
  (0 < MAX_LEADERBOARD_SCORES < UINT32_MOD)%N ->
  valid lb ->
  AddScoreToLeaderboard lb id nm sc ts = Ok (r, lb') ->
  valid lb' /\
  (scoreCount lb <= scoreCount lb' <= scoreCount lb + 1)%N /\
  (r = true ->
     exists entry',
       entry' ∈ live lb' /\ score entry' = sc /\
       cstring (name entry') = take MAX_NAME_LENGTH (cstring nm) /\
       cstring (timestamp entry') = take TIME_FORMAT (cstring ts)).
Proof.
  intros Hmax (Hlen & Hcount & Hsorted & Hterm) Hadd.
  destruct (AddScoreToLeaderboard_inv _ _ _ _ _ _ _ Hlen Hcount Hmax Hadd)
    as (Hlen' & [(Hlt & -> & old & entry' & _ & Hw & Hc & Hlive & _)
                |(Hfull & kept & lowest & Hkept &
                  [(-> & _ & ->)|(-> & _ & entry' & Hw & Hc & Hlive)])]).
  - destruct (write_entry_Ok _ _ _ _ _ _ Hw) as (_ & _ & _ & Hsc & Hn & Ht & Htn & Htt).
    split; [|split; [lia|]].
    + split; [congruence|]. split; [lia|]. split.
      * unfold sorted_live. rewrite Hlive. apply std_sort_Sorted.
      * rewrite Hlive, std_sort_Permutation. apply Forall_app. split; [done|].
        by repeat constructor.
    + intros _. exists entry'. split; [|done].
      rewrite Hlive, std_sort_Permutation. apply elem_of_app. right. by left.
  - split; [done|]. split; [lia|done].
  - destruct (write_entry_Ok _ _ _ _ _ _ Hw) as (_ & _ & _ & Hsc & Hn & Ht & Htn & Htt).
    rewrite Hkept in Hterm. apply Forall_app in Hterm as [Hterm _].
    split; [|split; [lia|]].
    + split; [congruence|]. split; [lia|]. split.
      * unfold sorted_live. rewrite Hlive. apply std_sort_Sorted.
      * rewrite Hlive, std_sort_Permutation. apply Forall_app. split; [done|].
        by repeat constructor.
    + intros _. exists entry'. split; [|done].
      rewrite Hlive, std_sort_Permutation. apply elem_of_app. right. by left.
Qed.

(** X12. What every admission keeps.  A leaderboard with no live entry is
    in a valid state: array at its declared length, count within the
    capacity, live slice sorted, live text fields terminated.  From a valid
    state [AddScoreToLeaderboard], with strings that [strncpy_s] can store,
    returns and leaves a valid state, with the count unchanged or grown by
    one. *)
Theorem AddScoreToLeaderboard_valid :
  (0 < MAX_LEADERBOARD_SCORES < UINT32_MOD)%N ->
  (forall arr, length arr = N.to_nat MAX_LEADERBOARD_SCORES ->
     valid {| scoreCount := 0; scores := arr |}) /\
  (forall lb id nm sc ts,
     valid lb ->
     fits NAME_SIZE nm MAX_NAME_LENGTH ->
     fits TIMESTAMP_SIZE ts TIME_FORMAT ->
     exists r lb',
       AddScoreToLeaderboard lb id nm sc ts = Ok (r, lb') /\
       valid lb' /\
       (scoreCount lb <= scoreCount lb' <= scoreCount lb + 1)%N).
Proof.
  intros Hmax. split.
  - intros arr Hlen. split; [done|]. split; [simpl; lia|].
    unfold sorted_live, live. simpl. split; constructor.
  - intros lb id nm sc ts Hvalid Hfn Hft.
    pose proof Hvalid as (Hlen & Hcount & _).
    destruct (AddScoreToLeaderboard_returns lb id nm sc ts Hlen Hcount Hmax Hfn Hft)
      as (r & lb' & Hadd).
    exists r, lb'. split; [done|].
    destruct (AddScoreToLeaderboard_inv_valid _ _ _ _ _ _ _ Hmax Hvalid Hadd)
      as (Hvalid' & Hc & _).
    done.
Qed.

(** X14. The best scores stay.  On a sorted leaderboard a score is turned
    down only when the table is full and no entry on it has a lower score.
    An admission on a table with room adds the entry to the live entries;
    an admission on a full table puts the entry in the place of one whose
    score is the lowest of the table and strictly below the new score, and
    keeps all the others. *)
Theorem AddScoreToLeaderboard_keeps_best (lb lb' : NetworkLeaderboard) (id : N)
    (nm : list ascii) (sc : N) (ts : list ascii) (r : bool) :
  (0 < MAX_LEADERBOARD_SCORES < UINT32_MOD)%N ->
  length (scores lb) = N.to_nat MAX_LEADERBOARD_SCORES ->
  (scoreCount lb <= MAX_LEADERBOARD_SCORES)%N ->
  sorted_live lb ->
  AddScoreToLeaderboard lb id nm sc ts = Ok (r, lb') ->
  (r = false ->
     scoreCount lb = MAX_LEADERBOARD_SCORES /\ lb' = lb /\
     forall e, e ∈ live lb -> (sc <= score e)%N) /\
  (r = true ->
     exists entry',
       score entry' = sc /\
       (((scoreCount lb < MAX_LEADERBOARD_SCORES)%N /\
         live lb' ≡ₚ entry' :: live lb)
        \/ (scoreCount lb = MAX_LEADERBOARD_SCORES /\
            exists kept lowest,
              live lb ≡ₚ lowest :: kept /\
              live lb' ≡ₚ entry' :: kept /\
              (score lowest < sc)%N /\
              forall e, e ∈ live lb -> (score lowest <= score e)%N))).
Proof.
  intros Hmax Hlen Hcount Hsorted Hadd.
  destruct (AddScoreToLeaderboard_inv _ _ _ _ _ _ _ Hlen Hcount Hmax Hadd)
    as (_ & [(Hlt & -> & old & entry' & _ & Hw & _ & Hlive & _)
            |(Hfull & kept & lowest & Hkept &
              [(-> & Hle & ->)|(-> & Hgt & entry' & Hw & _ & Hlive)])]).
  - split; [done|]. intros _.
    destruct (write_entry_Ok _ _ _ _ _ _ Hw) as (_ & _ & _ & Hsc & _).
    exists entry'. split; [done|]. left. split; [done|].
    by rewrite Hlive, std_sort_Permutation, Permutation_app_comm.
  - split; [|done]. intros _. do 2 (split; [done|]).
    assert (last (live lb) = Some lowest) as Hlast by (by rewrite Hkept, last_snoc).
    intros e He. pose proof (sorted_last_least _ _ Hsorted Hlast e He). lia.
  - split; [done|]. intros _.
    destruct (write_entry_Ok _ _ _ _ _ _ Hw) as (_ & _ & _ & Hsc & _).
    exists entry'. split; [done|]. right. split; [done|].
    exists kept, lowest.
    assert (last (live lb) = Some lowest) as Hlast by (by rewrite Hkept, last_snoc).
    split; [by rewrite Hkept, Permutation_app_comm|].
    split; [by rewrite Hlive, std_sort_Permutation, Permutation_app_comm|].
    split; [done|]. by apply sorted_last_least.
Qed.

(** X15. A count beyond the capacity.  When the count is above
    [MAX_LEADERBOARD_SCORES] (a state only a load can leave), the score is
    still compared with the last slot of the array: a score that is not
    greater is turned down and nothing changes; a greater score is written
    to that slot and the sort then runs over [scoreCount] entries, past the
    end of the array. *)
Theorem AddScoreToLeaderboard_count_beyond_capacity (lb : NetworkLeaderboard)
    (id : N) (nm : list ascii) (sc : N) (ts : list ascii) :
  length (scores lb) = N.to_nat MAX_LEADERBOARD_SCORES ->
  (0 < MAX_LEADERBOARD_SCORES < scoreCount lb)%N ->
  exists lowest,
    scores lb !! N.to_nat (MAX_LEADERBOARD_SCORES - 1) = Some lowest /\
    ((sc <= score lowest)%N ->
       AddScoreToLeaderboard lb id nm sc ts = Ok (false, lb)) /\
    ((score lowest < sc)%N ->
     fits NAME_SIZE nm MAX_NAME_LENGTH ->
     fits TIMESTAMP_SIZE ts TIME_FORMAT ->
       AddScoreToLeaderboard lb id nm sc ts = OutOfBounds).
Proof.
  intros Hlen Hcount.
  destruct (lookup_lt_is_Some_2 (scores lb)
              (N.to_nat (MAX_LEADERBOARD_SCORES - 1)) ltac:(lia)) as [lowest Hlow].
  exists lowest. split; [done|]. unfold AddScoreToLeaderboard.
  rewrite (proj2 (N.ltb_ge _ _)) by lia. rewrite Hlow. split.
  - intros Hle. by rewrite (proj2 (N.ltb_ge _ _) Hle).
  - intros Hlt Hfn Hft. rewrite (proj2 (N.ltb_lt _ _) Hlt).
    destruct (write_entry_fits lowest id nm sc ts Hfn Hft) as (entry' & -> & _).
    simpl. unfold sort_scores. rewrite length_insert.
    by rewrite (proj2 (Nat.leb_gt _ _)) by lia.
Qed.

Lemma write_entry_overlong entry id nm sc ts :
  ~ fits NAME_SIZE nm MAX_NAME_LENGTH \/ ~ fits TIMESTAMP_SIZE ts TIME_FORMAT ->
  write_entry entry id nm sc ts = InvalidParameter.
Proof.
  intros Hunfit. unfold write_entry.
  destruct (decide (Nat.min MAX_NAME_LENGTH (length (cstring nm)) < NAME_SIZE)%nat)
    as [Hfn|Hfn]; fold (fits NAME_SIZE nm MAX_NAME_LENGTH) in Hfn.
  - destruct Hunfit as [Hn|Ht]; [done|].
    destruct (strncpy_s_fits NAME_SIZE (name entry) nm MAX_NAME_LENGTH Hfn)
      as (n' & -> & _).
    simpl. by rewrite (strncpy_s_overlong TIMESTAMP_SIZE) by done.
  - by rewrite (strncpy_s_overlong NAME_SIZE) by done.
Qed.

(** X17. Strings that do not fit.  A name or a timestamp that [strncpy_s]
    cannot store with its terminator (the lesser of the count and the
    length of the string is not below the size of the field) stops the
    call in the invalid-parameter handler whenever an entry is written: on
    every table with room, and on a full table when the score is above the
    last one.  A score that is turned down is turned down before any string
    is copied. *)
Theorem AddScoreToLeaderboard_overlong (lb : NetworkLeaderboard) (id : N)
    (nm : list ascii) (sc : N) (ts : list ascii) :
  length (scores lb) = N.to_nat MAX_LEADERBOARD_SCORES ->
  (0 < MAX_LEADERBOARD_SCORES)%N ->
  ~ fits NAME_SIZE nm MAX_NAME_LENGTH \/ ~ fits TIMESTAMP_SIZE ts TIME_FORMAT ->
  ((scoreCount lb < MAX_LEADERBOARD_SCORES)%N ->
     AddScoreToLeaderboard lb id nm sc ts = InvalidParameter) /\
  ((MAX_LEADERBOARD_SCORES <= scoreCount lb)%N ->
     exists lowest,
       scores lb !! N.to_nat (MAX_LEADERBOARD_SCORES - 1) = Some lowest /\
       ((score lowest < sc)%N ->
          AddScoreToLeaderboard lb id nm sc ts = InvalidParameter) /\
       ((sc <= score lowest)%N ->
          AddScoreToLeaderboard lb id nm sc ts = Ok (false, lb))).
Proof.
  intros Hlen Hmax Hunfit. unfold AddScoreToLeaderboard. split.
  - intros Hlt. rewrite (proj2 (N.ltb_lt _ _) Hlt).
    destruct (lookup_lt_is_Some_2 (scores lb) (N.to_nat (scoreCount lb)) ltac:(lia))
      as [old ->].
    by rewrite write_entry_overlong.
  - intros Hge. rewrite (proj2 (N.ltb_ge _ _) Hge).
    destruct (lookup_lt_is_Some_2 (scores lb)
                (N.to_nat (MAX_LEADERBOARD_SCORES - 1)) ltac:(lia)) as [lowest Hlow].
    exists lowest. rewrite Hlow. split; [done|]. split.
    + intros Hlt. rewrite (proj2 (N.ltb_lt _ _) Hlt). by rewrite write_entry_overlong.
    + intros Hle. by rewrite (proj2 (N.ltb_ge _ _) Hle).
Qed.

End LeaderboardExtras.

(** * The leaderboard: the text fields *)

Section TextFieldProofs.
Import Leaderboard.
Context `{Header}.


End TextFieldProofs.

(** * The leaderboard: the top players after an admission, faults, files *)

Section TopPlayersExtras.
Import Leaderboard.
Context `{Header}.

(** The lines of a leaderboard whose live slice can be printed. *)
Lemma GetTopPlayersFromLeaderboard_printable lb n :
  (scoreCount lb < UINT32_MOD)%N ->
  (N.to_nat (scoreCount lb) <= length (scores lb))%nat ->
  Forall (fun e => terminated (name e) /\ terminated (timestamp e)) (live lb) ->
  exists lines,
    GetTopPlayersFromLeaderboard lb n = Ok (lines, lb) /\
    length lines = N.to_nat (N.min n (scoreCount lb)) /\
    forall x e, (x < length lines)%nat -> live lb !! x = Some e ->
      lines !! x = Some (rendered (N.of_nat x + 1) e).
Proof.
  intros Hcount Hlen Hterm. unfold GetTopPlayersFromLeaderboard.
  set (count := if (n <? scoreCount lb)%N then n else scoreCount lb).
  assert (count = N.min n (scoreCount lb)) as Hmin.
  { unfold count. destruct (n <? scoreCount lb)%N eqn:Hlt.
    - apply N.ltb_lt in Hlt. lia.
    - apply N.ltb_ge in Hlt. lia. }
  destruct (GetTopPlayers_loop_spec lb (N.to_nat count) 0%N [])
    as (out & Hloop & Hout & Hlines).
  { lia. }
  { intros j Hj.
    destruct (lookup_lt_is_Some_2 (live lb) j) as [e He].
    { unfold live. rewrite length_take. lia. }
    exists e. rewrite Forall_lookup in Hterm. split; [|by eapply Hterm].
    unfold live in He. apply lookup_take_Some in He as [He _]. done. }
  exists out. rewrite Hloop. simpl. split; [done|]. split; [lia|].
  intros x e Hx He. destruct (Hlines x ltac:(lia)) as (e' & He' & Hline).
  unfold live in He. apply lookup_take_Some in He as [He _].
  simpl in He'. rewrite He in He'. injection He' as <-.
  rewrite Hline. by rewrite N.add_0_l.
Qed.

(** X13. An admitted score is on the list.  After an
    [AddScoreToLeaderboard] that returned [true] on a valid leaderboard, the
    list of all live entries can be produced, and one of its lines is the
    line of the admission: its rank, the first [MAX_NAME_LENGTH] characters
    of the name, the score, and the first [TIME_FORMAT] characters of the
    timestamp. *)
Theorem AddScoreToLeaderboard_then_top (lb lb' : NetworkLeaderboard) (id : N)
    (nm : list ascii) (sc : N) (ts : list ascii) :
  (0 < MAX_LEADERBOARD_SCORES < UINT32_MOD)%N ->
  valid lb ->
  AddScoreToLeaderboard lb id nm sc ts = Ok (true, lb') ->
  exists lines x,
    GetTopPlayersFromLeaderboard lb' (scoreCount lb') = Ok (lines, lb') /\
    length lines = N.to_nat (scoreCount lb') /\
    lines !! x = Some (admitted_line (N.of_nat x + 1) nm sc ts).
Proof.
  intros Hmax Hvalid Hadd.
  destruct (AddScoreToLeaderboard_inv_valid _ _ _ _ _ _ _ Hmax Hvalid Hadd)
    as ((Hlen & Hcount & _ & Hterm) & _ & Hentry).
  destruct (Hentry eq_refl) as (entry' & Hin & Hsc & Hn & Ht).
  destruct (GetTopPlayersFromLeaderboard_printable lb' (scoreCount lb'))
    as (lines & Htop & Hlines & Hline); [lia|lia|done|].
  apply list_elem_of_lookup in Hin as [x Hx].
  exists lines, x. split; [done|]. split; [lia|].
  rewrite (Hline x entry').
  - unfold rendered, admitted_line. by rewrite Hn, Ht, Hsc.
  - apply lookup_lt_Some in Hx. unfold live in Hx. rewrite length_take in Hx. lia.
  - done.
Qed.

Lemma read_cstring_cases buf :
  (terminated buf /\ read_cstring buf = Ok (cstring buf))
  \/ (~ terminated buf /\ read_cstring buf = OutOfBounds).
Proof.
  unfold terminated. induction buf as [|c buf IH]; cbn [read_cstring cstring].
  - right. split; [apply not_elem_of_nil|done].
  - destruct (Ascii.eqb c NUL) eqn:Hc.
    + apply Ascii.eqb_eq in Hc as ->. left. split; [by left|done].
    + apply Ascii.eqb_neq in Hc.
      destruct IH as [[Hin ->]|[Hnot ->]]; simpl.
      * left. split; [by right|done].
      * right. split; [|done]. rewrite not_elem_of_cons. split; [congruence|done].
Qed.

(** The loop either prints every slot it visits, or stops outside an array
    at a slot it cannot print. *)
Lemma GetTopPlayers_loop_cases lb n (x : N) acc :
  (x + N.of_nat n < UINT32_MOD)%N ->
  ((exists out, GetTopPlayers_loop lb n x acc = Ok out) /\
   forall j, (j < n)%nat -> ~ unprintable lb (N.to_nat x + j))
  \/ (GetTopPlayers_loop lb n x acc = OutOfBounds /\
      exists j, (j < n)%nat /\ unprintable lb (N.to_nat x + j)).
Proof.
  revert x acc. induction n as [|n IH]; intros x acc Hx.
  - left. split; [by eexists|]. intros; lia.
  - cbn [GetTopPlayers_loop].
    destruct (scores lb !! N.to_nat x) as [e|] eqn:He.
    2:{ right. split; [done|]. exists 0%nat. split; [lia|].
        unfold unprintable. by rewrite Nat.add_0_r, He. }
    destruct (read_cstring_cases (name e)) as [[Htn ->]|[Htn ->]]; simpl.
    2:{ right. split; [done|]. exists 0%nat. split; [lia|].
        unfold unprintable. rewrite Nat.add_0_r, He. by left. }
    destruct (read_cstring_cases (timestamp e)) as [[Htt ->]|[Htt ->]]; simpl.
    2:{ right. split; [done|]. exists 0%nat. split; [lia|].
        unfold unprintable. rewrite Nat.add_0_r, He. by right. }
    rewrite !wrap32_small by lia.
    match goal with
    | |- context [GetTopPlayers_loop lb n (x + 1)%N ?a] =>
        destruct (IH (x + 1)%N a ltac:(lia)) as [[Hout Hgood]|[Hout (j & Hj & Hbad)]]
    end.
    + left. split; [done|]. intros [|j] Hj.
      * unfold unprintable. rewrite Nat.add_0_r, He. tauto.
      * replace (N.to_nat x + S j)%nat with (N.to_nat (x + 1) + j)%nat by lia.
        apply Hgood. lia.
    + right. split; [done|]. exists (S j). split; [lia|].
      by replace (N.to_nat x + S j)%nat with (N.to_nat (x + 1) + j)%nat by lia.
Qed.

(** X16. When the list cannot be produced.  [GetTopPlayersFromLeaderboard]
    never ends in the invalid-parameter handler, and it reads outside an
    array exactly when one of the first [min(n, scoreCount)] slots is
    outside the backing array or holds a name or timestamp without a
    terminator. *)
Theorem GetTopPlayersFromLeaderboard_faults (lb : NetworkLeaderboard) (n : N) :
  (scoreCount lb < UINT32_MOD)%N ->
  GetTopPlayersFromLeaderboard lb n <> InvalidParameter /\
  (GetTopPlayersFromLeaderboard lb n = OutOfBounds <->
   exists j, (j < N.to_nat (N.min n (scoreCount lb)))%nat /\ unprintable lb j).
Proof.
  intros Hcount. unfold GetTopPlayersFromLeaderboard.
  set (count := if (n <? scoreCount lb)%N then n else scoreCount lb).
  assert (count = N.min n (scoreCount lb)) as Hmin.
  { unfold count. destruct (n <? scoreCount lb)%N eqn:Hlt.
    - apply N.ltb_lt in Hlt. lia.
    - apply N.ltb_ge in Hlt. lia. }
  rewrite <- Hmin.
  destruct (GetTopPlayers_loop_cases lb (N.to_nat count) 0%N [] ltac:(lia))
    as [[[out ->] Hgood]|[-> Hbad]]; simpl.
  - split; [done|]. split; [done|]. intros (j & Hj & Hbad).
    exfalso. by apply (Hgood j).
  - split; [done|]. split; [|done]. intros _. exact Hbad.
Qed.

Lemma GetTopPlayers_loop_app lb n k (x : N) acc :
  GetTopPlayers_loop lb (n + k) x acc =
    mid ← GetTopPlayers_loop lb n x acc;
    GetTopPlayers_loop lb k (Nat.iter n (fun y => wrap32 (y + 1)) x) mid.
Proof.
  revert x acc. induction n as [|n IH]; intros x acc; [done|].
  rewrite Nat.iter_succ_r. cbn [Nat.add GetTopPlayers_loop].
  destruct (scores lb !! N.to_nat x) as [e|]; [|done].
  destruct (read_cstring (name e)) as [nm| |]; simpl; [|done|done].
  destruct (read_cstring (timestamp e)) as [ts| |]; simpl; [|done|done].
  apply IH.
Qed.

Lemma GetTopPlayers_loop_length lb n (x : N) acc out :
  GetTopPlayers_loop lb n x acc = Ok out ->
  exists new, out = acc ++ new /\ length new = n.
Proof.
  revert x acc. induction n as [|n IH]; intros x acc; cbn [GetTopPlayers_loop].
  - intros [= <-]. exists []. by rewrite app_nil_r.
  - destruct (scores lb !! N.to_nat x) as [e|]; [|done].
    destruct (read_cstring (name e)) as [nm| |]; simpl; try done.
    destruct (read_cstring (timestamp e)) as [ts| |]; simpl; try done.
    intros Hloop. destruct (IH _ _ Hloop) as (new & -> & Hlen).
    eexists. rewrite <- app_assoc. split; [reflexivity|]. simpl. lia.
Qed.

(** X19. Fewer players, a prefix.  When the list for [m] players can be
    produced, the list for [n <= m] players can be produced too, and it is
    the first [n] lines of the former. *)
Theorem GetTopPlayersFromLeaderboard_prefix (lb lb' : NetworkLeaderboard)
    (n m : N) (lines : list string) :
  (n <= m)%N ->
  GetTopPlayersFromLeaderboard lb m = Ok (lines, lb') ->
  GetTopPlayersFromLeaderboard lb n = Ok (take (N.to_nat n) lines, lb).
Proof.
  intros Hnm. unfold GetTopPlayersFromLeaderboard.
  set (cm := if (m <? scoreCount lb)%N then m else scoreCount lb).
  set (cn := if (n <? scoreCount lb)%N then n else scoreCount lb).
  assert (cm = N.min m (scoreCount lb)) as Hcm.
  { unfold cm. destruct (m <? scoreCount lb)%N eqn:Hlt.
    - apply N.ltb_lt in Hlt. lia.
    - apply N.ltb_ge in Hlt. lia. }
  assert (cn = N.min n (scoreCount lb)) as Hcn.
  { unfold cn. destruct (n <? scoreCount lb)%N eqn:Hlt.
    - apply N.ltb_lt in Hlt. lia.
    - apply N.ltb_ge in Hlt. lia. }
  replace (N.to_nat cm) with (N.to_nat cn + (N.to_nat cm - N.to_nat cn))%nat by lia.
  rewrite GetTopPlayers_loop_app.
  destruct (GetTopPlayers_loop lb (N.to_nat cn) 0 []) as [mid| |] eqn:Hmid; simpl;
    try done.
  destruct (GetTopPlayers_loop lb (N.to_nat cm - N.to_nat cn) _ mid)
    as [out| |] eqn:Hout; simpl; try done.
  intros [= <- <-].
  destruct (GetTopPlayers_loop_length _ _ _ _ _ Hmid) as (new & -> & Hnew).
  destruct (GetTopPlayers_loop_length _ _ _ _ _ Hout) as (rest & -> & Hrest).
  simpl. do 2 f_equal.
  destruct (N.le_gt_cases n (scoreCount lb)) as [Hle|Hgt].
  - by rewrite take_app_length' by lia.
  - assert (rest = []) as -> by (apply length_zero_iff_nil; lia).
    rewrite app_nil_r, take_ge by lia. done.
Qed.

End TopPlayersExtras.

(** * Concrete instances of the further properties *)

Section ExtraInstanceProofs.
Import GameState Leaderboard Instances.

Lemma party_one_well_formed : @players_well_formed small_players party_one.
Proof. repeat split; vm_compute; (reflexivity || discriminate). Qed.

Lemma party_full_well_formed : @players_well_formed small_players party_full.
Proof. repeat split; vm_compute; (reflexivity || discriminate). Qed.

Lemma store_empty_well_formed : @well_formed small_header store_empty.
Proof. repeat split; vm_compute; (reflexivity || discriminate). Qed.

Lemma board_full_valid : @valid small_header board_full.
Proof.
  split; [reflexivity|]. split; [vm_compute; discriminate|].
  split; [apply board_full_sorted|].
  change (live board_full) with (scores board_full).
  repeat constructor; unfold terminated; vm_compute; set_solver.
Qed.

(** A miss and a hit on the store with one object. *)
Lemma GetNetworkObject_lookup_witness :
  GetNetworkObject store_one 2 origin origin origin =
    Ok (false, (origin, origin, origin)) /\
  GetNetworkObject store_one 1 origin origin origin =
    Ok (true, (vec 10 11, vec 12 13, vec 14 15)).
Proof.
  split.
  - apply (@GetNetworkObject_lookup small_header store_one 2 origin origin origin
             store_one_well_formed).
    intros k o Hk. replace k with 0%N by (simpl in Hk; lia).
    intros [= <-]. discriminate.
  - apply (proj2 (@GetNetworkObject_lookup small_header store_one 1 origin origin
                    origin store_one_well_formed)
             0%N (object 1 (vec 10 11) (vec 12 13) (vec 14 15))).
    split; [repeat split|]. intros j o' Hj. lia.
Defined.

(** Moving object 2 of the full store leaves object 1 as it reads. *)
Lemma SetNetworkObject_other_identifier_witness :
  exists s',
    @SetNetworkObject small_header store_full 2 origin (vec 1 2) (vec 3 4) =
      Ok (true, s') /\
    GetNetworkObject s' 1 origin origin origin =
      GetNetworkObject store_full 1 origin origin origin.
Proof.
  eexists. split; [vm_compute; reflexivity|].
  apply (@SetNetworkObject_other_identifier small_header store_full _ 2 1
           origin (vec 1 2) (vec 3 4) origin origin origin true
           store_full_well_formed); [vm_compute; reflexivity|discriminate].
Defined.

(** The store with one object, identifier 2 set. *)
Lemma SetNetworkObject_invariant_witness :
  exists r s',
    @SetNetworkObject small_header store_one 2 origin origin origin = Ok (r, s') /\
    @well_formed small_header s' /\
    NoDup (live_identifiers s') /\
    (forall id', id' ∈ live_identifiers store_one -> id' ∈ live_identifiers s') /\
    (r = true -> 2%N ∈ live_identifiers s') /\
    playerData s' = playerData store_one /\ playerCount s' = playerCount store_one.
Proof.
  apply (@SetNetworkObject_invariant small_header store_one 2 origin origin origin
           store_one_well_formed).
  vm_compute. apply NoDup_singleton.
Defined.

(** Two calls fill the two free slots; identifier 3 is then refused. *)
Lemma SetNetworkObjects_distinct_witness :
  exists s',
    @SetNetworkObjects small_header store_empty [(1%N, moving 10); (2%N, moving 20)] =
      Ok ([true; true], s') /\
    objectCount s' = 2%N /\
    (forall id t pos vel scl, (id, t) ∈ [(1%N, moving 10); (2%N, moving 20)] ->
       GetNetworkObject s' id pos vel scl =
         Ok (true, (position t, velocity t, scale t))) /\
    (2%nat = N.to_nat 2 ->
     forall id pos vel scl, id ∉ [1%N; 2%N] ->
       @SetNetworkObject small_header s' id pos vel scl = Ok (false, s')).
Proof.
  apply (@SetNetworkObjects_distinct small_header store_empty
           [(1%N, moving 10); (2%N, moving 20)] store_empty_well_formed).
  - reflexivity.
  - simpl. apply NoDup_cons. split; [|apply NoDup_singleton].
    intros Hin. apply list_elem_of_singleton in Hin. discriminate.
  - simpl. lia.
Defined.

(** A miss and a hit on the table with one player. *)
Lemma GetNetworkPlayerData_lookup_witness :
  GetNetworkPlayerData party_one 8 0 0 = Ok (false, (0%N, 0%N)) /\
  GetNetworkPlayerData party_one 7 0 0 = Ok (true, (100%N, 3%N)).
Proof.
  split.
  - apply (@GetNetworkPlayerData_lookup small_players party_one 8 0 0
             party_one_well_formed).
    vm_compute. intros Hin. apply list_elem_of_singleton in Hin. discriminate.
  - apply (proj2 (@GetNetworkPlayerData_lookup small_players party_one 7 0 0
                    party_one_well_formed) (new_player 7 100 3)).
    reflexivity.
Defined.

(** Player 7 is overwritten, player 8 is appended to the table with one
    player, and player 9 finds the full table exhausted. *)
Lemma SetNetworkPlayerData_upsert_witness :
  (exists k p,
     live_players party_full !! k = Some p /\ player_identifier p = 7%N /\
     (forall j q, (j < k)%nat -> live_players party_full !! j = Some q ->
        player_identifier q <> 7%N) /\
     @SetNetworkPlayerData small_players party_full 7 120 2 =
       Ok (true, set_playerData party_full
                   (<[k := overwrite_player p 120 2]> (playerData party_full)))) /\
  @SetNetworkPlayerData small_players party_one 8 250 2 = Ok (true, party_full) /\
  @SetNetworkPlayerData small_players party_full 9 1 1 = Ok (false, party_full).
Proof.
  split; [|split].
  - apply (@SetNetworkPlayerData_upsert small_players party_full 7 120 2
             party_full_well_formed).
    vm_compute. by left.
  - apply (@SetNetworkPlayerData_upsert small_players party_one 8 250 2
             party_one_well_formed).
    + vm_compute. intros Hin. apply list_elem_of_singleton in Hin. discriminate.
    + reflexivity.
  - apply (@SetNetworkPlayerData_upsert small_players party_full 9 1 1
             party_full_well_formed).
    + vm_compute. intros Hin. apply elem_of_cons in Hin as [Hin|Hin]; [discriminate|].
      apply list_elem_of_singleton in Hin. discriminate.
    + reflexivity.
Defined.

(** Player 8 is appended and read back. *)
Lemma SetNetworkPlayerData_GetNetworkPlayerData_witness :
  GetNetworkPlayerData party_full 8 0 0 = Ok (true, (250%N, 2%N)).
Proof.
  apply (@SetNetworkPlayerData_GetNetworkPlayerData small_players party_one
           party_full 8 250 2 0 0 party_one_well_formed).
  vm_compute. reflexivity.
Defined.

(** A new score for player 8 leaves player 7 as it reads. *)
Lemma SetNetworkPlayerData_other_identifier_witness :
  exists s',
    @SetNetworkPlayerData small_players party_full 8 300 1 = Ok (true, s') /\
    GetNetworkPlayerData s' 7 0 0 = GetNetworkPlayerData party_full 7 0 0.
Proof.
  eexists. split; [vm_compute; reflexivity|].
  apply (@SetNetworkPlayerData_other_identifier small_players party_full _ 8 7
           300 1 0 0 true party_full_well_formed);
    [vm_compute; reflexivity|discriminate].
Defined.

(** The table with one player, player 8 set. *)
Lemma SetNetworkPlayerData_invariant_witness :
  exists r s',
    @SetNetworkPlayerData small_players party_one 8 250 2 = Ok (r, s') /\
    @players_well_formed small_players s' /\
    NoDup (live_player_identifiers s') /\
    (forall id', id' ∈ live_player_identifiers party_one ->
       id' ∈ live_player_identifiers s') /\
    (r = true -> 8%N ∈ live_player_identifiers s').
Proof.
  apply (@SetNetworkPlayerData_invariant small_players party_one 8 250 2
           party_one_well_formed).
  vm_compute. apply NoDup_singleton.
Defined.

(** Appending player 8 leaves object 1 as it reads. *)
Lemma objects_and_players_independent_witness :
  GetNetworkObject party_full 1 origin origin origin =
    GetNetworkObject party_one 1 origin origin origin.
Proof.
  apply (proj1 (@objects_and_players_independent small_players small_header
                  party_one party_full 8 1 true)
           250%N 2%N origin origin origin party_one_well_formed).
  vm_compute. reflexivity.
Defined.

(** A third score on the table of two. *)
Lemma AddScoreToLeaderboard_free_slot_witness :
  exists entry' lb',
    @AddScoreToLeaderboard small_header board_two 5 (text "Alexander") 90
        (text "2024-01-01") = Ok (true, lb') /\
    Leaderboard.identifier entry' = 5%N /\ score entry' = 90%N /\
    cstring (name entry') = take 3 (cstring (text "Alexander")) /\
    cstring (timestamp entry') = take 3 (cstring (text "2024-01-01")) /\
    scoreCount lb' = 3%N /\
    live lb' ≡ₚ live board_two ++ [entry'] /\
    sorted_live lb' /\
    drop 3 (scores lb') = drop 3 (scores board_two).
Proof.
  apply (@AddScoreToLeaderboard_free_slot small_header board_two 5
           (text "Alexander") 90 (text "2024-01-01")).
  - reflexivity.
  - vm_compute. split; reflexivity.
  - unfold fits. vm_compute. lia.
  - unfold fits. vm_compute. lia.
Defined.

(** The small header: empty tables are valid and admissions keep validity. *)
Lemma AddScoreToLeaderboard_valid_witness :
  (forall arr, length arr = 3%nat ->
     @valid small_header {| scoreCount := 0; scores := arr |}) /\
  (forall lb id nm sc ts,
     @valid small_header lb ->
     fits 4 nm 3 ->
     fits 4 ts 3 ->
     exists r lb',
       @AddScoreToLeaderboard small_header lb id nm sc ts = Ok (r, lb') /\
       @valid small_header lb' /\
       (scoreCount lb <= scoreCount lb' <= scoreCount lb + 1)%N).
Proof.
  apply (@AddScoreToLeaderboard_valid small_header).
  vm_compute. split; reflexivity.
Defined.

(** The admission of 60 for "X" on the full table shows on the list. *)
Lemma AddScoreToLeaderboard_then_top_witness :
  exists lines x,
    GetTopPlayersFromLeaderboard board_admitted 3 = Ok (lines, board_admitted) /\
    length lines = 3%nat /\
    lines !! x =
      Some (@admitted_line small_header (N.of_nat x + 1) (text "X") 60 (text "t04")).
Proof.
  apply (@AddScoreToLeaderboard_then_top small_header board_full board_admitted 7
           (text "X") 60 (text "t04")).
  - vm_compute. split; reflexivity.
  - apply board_full_valid.
  - vm_compute. reflexivity.
Defined.

(** On the full table 100, 80, 50 the score 60 takes the place of the 50. *)
Lemma AddScoreToLeaderboard_keeps_best_witness :
  exists entry',
    score entry' = 60%N /\
    (((scoreCount board_full < 3)%N /\
      live board_admitted ≡ₚ entry' :: live board_full)
     \/ (scoreCount board_full = 3%N /\
         exists kept lowest,
           live board_full ≡ₚ lowest :: kept /\
           live board_admitted ≡ₚ entry' :: kept /\
           (score lowest < 60)%N /\
           forall e, e ∈ live board_full -> (score lowest <= score e)%N)).
Proof.
  apply (@AddScoreToLeaderboard_keeps_best small_header board_full board_admitted 7
           (text "X") 60 (text "t04") true).
  - vm_compute. split; reflexivity.
  - reflexivity.
  - vm_compute. discriminate.
  - apply board_full_sorted.
  - vm_compute. reflexivity.
  - reflexivity.
Defined.

(** Under a count of four the array of three is sorted past its end. *)
Lemma AddScoreToLeaderboard_count_beyond_capacity_witness :
  exists lowest,
    scores board_over !! 2%nat = Some lowest /\
    ((60 <= score lowest)%N ->
       @AddScoreToLeaderboard small_header board_over 7 (text "X") 60 (text "t04") =
         Ok (false, board_over)) /\
    ((score lowest < 60)%N ->
     fits 4 (text "X") 3 ->
     fits 4 (text "t04") 3 ->
       @AddScoreToLeaderboard small_header board_over 7 (text "X") 60 (text "t04") =
         OutOfBounds).
Proof.
  apply (@AddScoreToLeaderboard_count_beyond_capacity small_header board_over 7
           (text "X") 60 (text "t04")).
  - reflexivity.
  - vm_compute. split; reflexivity.
Defined.

(** Under a count of four the fourth line is read outside the array. *)
Lemma GetTopPlayersFromLeaderboard_faults_witness :
  GetTopPlayersFromLeaderboard board_over 4 <> InvalidParameter /\
  (GetTopPlayersFromLeaderboard board_over 4 = OutOfBounds <->
   exists j, (j < N.to_nat (N.min 4 (scoreCount board_over)))%nat /\
     unprintable board_over j).
Proof.
  apply (GetTopPlayersFromLeaderboard_faults board_over 4).
  vm_compute. reflexivity.
Defined.

(** With fields of four elements and a count of four, "Alex" does not fit. *)
Lemma AddScoreToLeaderboard_overlong_witness :
  @AddScoreToLeaderboard tight_header board_two 5 (text "Alex") 90 (text "t07") =
    InvalidParameter.
Proof.
  apply (@AddScoreToLeaderboard_overlong tight_header board_two 5 (text "Alex") 90
           (text "t07")).
  - reflexivity.
  - vm_compute. reflexivity.
  - left. unfold fits. vm_compute. lia.
  - vm_compute. reflexivity.
Defined.

(** The first line of the first two. *)
Lemma GetTopPlayersFromLeaderboard_prefix_witness :
  GetTopPlayersFromLeaderboard board_full 1 =
    Ok (take 1 ["1) ann: 100 [t01]"; "2) bob: 80 [t02]"]%string, board_full).
Proof.
  apply (GetTopPlayersFromLeaderboard_prefix board_full board_full 1 2).
  - vm_compute. discriminate.
  - vm_compute. reflexivity.
Defined.

End ExtraInstanceProofs.

(** * Concrete instances of the text fields *)

Section TextFieldInstances.
Import GameState Leaderboard Instances.



End TextFieldInstances.
